(** * Daily scoring and streak recalculation

    A shallow embedding of [backend/services/scoring.js] (the Composer
    [recalculateDailyScore] and the Forward Streak Reconciler
    [recalculateStreaksForward]) together with the route handlers that
    trigger them, and the properties of the specification that concern them.

    Conventions of the embedding:
    - a JavaScript number is an IEEE-754 binary64 value, Rocq's primitive
      [float]; integers that the code keeps in INTEGER columns or obtains
      from [COUNT] queries (streak days, task counts, minutes) are [Z] and are
      converted with [Z_to_float] where the code does arithmetic on them;
    - a well-formed ['YYYY-MM-DD'] date is represented by its day number
      (a [Z]): [Date.UTC], [setUTCDate(getUTCDate() ± 1)] and
      [toISOString().slice(0, 10)] are then [± 1], and the order on ISO
      strings ([MAX(date)], [new Date(a) > new Date(b)]) is the order on [Z];
    - the SQLite store is a record of tables; the timestamp columns
      ([created_at], [updated_at]) and the surrogate [id] of the two score
      tables are not modelled;
    - every SQL statement goes through [getDb] / [runDb], which may fail as
      dictated by a fault schedule carried in the world; successful writes
      and the console lines that mark the entry of the two engine functions
      are recorded in a trace. *)

From Stdlib Require Import ZArith Floats.
From stdpp Require Import gmap strings list.

Set Warnings "-inexact-float".
#[local] Open Scope Z_scope.

(** ** JavaScript numbers *)

Module JsNum.

(** An integer used as a number (exact below 2^53, correctly rounded
    above). *)
Definition Z_to_float (z : Z) : float :=
  SF2Prim (binary_normalize prec emax z 0 false).

Definition is_nan (x : float) : bool := negb (PrimFloat.eqb x x).

(** [x === y] and [x !== y] on numbers. *)
Definition strict_eq (x y : float) : bool := PrimFloat.eqb x y.
Definition strict_neq (x y : float) : bool := negb (PrimFloat.eqb x y).

(** [x >= y] on numbers. *)
Definition ge (x y : float) : bool := PrimFloat.leb y x.

(** [row.score || 0] where [row.score] is a number or NULL: the falsy
    numbers are [0], [-0] and [NaN]. *)
Definition or_zero (v : option float) : float :=
  match v with
  | Some x => if PrimFloat.eqb x 0 || is_nan x then 0%float else x
  | None => 0%float
  end.

(** [Math.round]: the closest integral number, ties towards +∞; [-0] for
    [-0.5 <= x < 0]; NaN, the zeros and the infinities are returned as
    they are. *)
Definition Math_round (x : float) : float :=
  match Prim2SF x with
  | S754_finite s m e =>
      if 0 <=? e then x
      else
        let k := - e in
        let q := Z.shiftr (Z.pos m) k in
        let rem := Z.land (Z.pos m) (Z.ones k) in
        let half := Z.shiftl 1 (k - 1) in
        if s then
          let n := if half <? rem then q + 1 else q in
          if n =? 0 then (-0)%float else Z_to_float (- n)
        else
          let n := if half <=? rem then q + 1 else q in
          Z_to_float n
  | _ => x
  end.

(** A computable stand-in for [Math.log2], used where a property is run
    on concrete data: [log2 (m * 2^e) ≈ e + (m - 1)] for [1 <= m < 2].
    ECMAScript only asks for an implementation-approximated value; the
    engine below is parameterised by the implementation. *)
Definition log2_linear (x : float) : float :=
  if PrimFloat.ltb 0 x && PrimFloat.ltb x infinity then
    let (m, e) := Z.frexp x in
    (Z_to_float (e - 1) + (2 * m - 1))%float
  else if PrimFloat.eqb x 0 then neg_infinity
  else if PrimFloat.eqb x infinity then infinity
  else nan.

End JsNum.
Import JsNum.

(** ** The store *)

Inductive TimeLogType := productive | distracting.

#[global] Instance TimeLogType_eq_dec : EqDecision TimeLogType.
Proof. solve_decision. Defined.

(** Rows of the three source tables, restricted to the columns the engine
    and its triggers read or write. *)
Record TaskRow := {
  task_id : Z;
  description : string;
  target_date : Z;
  is_assigned : bool;
  is_done : bool
}.

Record HabitCompletionRow := {
  habit_id : Z;
  completion_date : Z;
  weight_at_completion : float
}.

Record TimeLogRow := {
  type : TimeLogType;
  date_logged_for : Z;
  duration_minutes : Z
}.

(** A row of [DailyScores], keyed by its date. *)
Record DailyScoreRow := {
  habit_score_component : float;
  task_score_component : float;
  time_score_component : float;
  streak_bonus_component : float;
  total_daily_score : float;
  is_manually_marked_rest_day : Z;
  notes : string
}.

Record Db := {
  Tasks : list TaskRow;
  HabitCompletions : list HabitCompletionRow;
  TimeLogs : list TimeLogRow;
  DailyScores : gmap Z DailyScoreRow;
  StreakData : gmap Z Z
}.

Definition set_DailyScores (f : gmap Z DailyScoreRow → gmap Z DailyScoreRow) (db : Db) : Db :=
  {| Tasks := Tasks db; HabitCompletions := HabitCompletions db; TimeLogs := TimeLogs db;
     DailyScores := f (DailyScores db); StreakData := StreakData db |}.

Definition set_StreakData (f : gmap Z Z → gmap Z Z) (db : Db) : Db :=
  {| Tasks := Tasks db; HabitCompletions := HabitCompletions db; TimeLogs := TimeLogs db;
     DailyScores := DailyScores db; StreakData := f (StreakData db) |}.

Definition set_Tasks (f : list TaskRow → list TaskRow) (db : Db) : Db :=
  {| Tasks := f (Tasks db); HabitCompletions := HabitCompletions db; TimeLogs := TimeLogs db;
     DailyScores := DailyScores db; StreakData := StreakData db |}.

Definition set_HabitCompletions (f : list HabitCompletionRow → list HabitCompletionRow)
    (db : Db) : Db :=
  {| Tasks := Tasks db; HabitCompletions := f (HabitCompletions db); TimeLogs := TimeLogs db;
     DailyScores := DailyScores db; StreakData := StreakData db |}.

(** The object [scoreDataForDb] that the Composer builds, binds to its
    [INSERT INTO DailyScores] statement and resolves to. *)
Record ScoreData := {
  sd_date : Z;
  sd_habit_score_component : float;
  sd_task_score_component : float;
  sd_time_score_component : float;
  sd_streak_bonus_component : float;
  sd_total_daily_score : float;
  sd_is_manually_marked_rest_day : Z
}.

(** ** Effects: fallible storage and a trace *)

Inductive Event :=
  | Log_recalculateDailyScore (date : Z)
  | Log_recalculateStreaksForward (startDate : Z)
  | Warn_no_DailyScores_entry (date : Z)
  | Upsert_DailyScores (values : ScoreData)
  | Upsert_StreakData (date : Z) (current_streak_days : Z)
  | Update_DailyScores_bonus (date : Z) (bonus total : float)
  | Upsert_DailyScores_rest_day (date : Z) (flag : Z)
  | Update_Tasks (id : Z)
  | Delete_HabitCompletions (habit : Z) (date : Z)
  | Console_error.

Definition is_write (e : Event) : bool :=
  match e with
  | Log_recalculateDailyScore _ | Log_recalculateStreaksForward _
  | Warn_no_DailyScores_entry _ | Console_error => false
  | _ => true
  end.

Definition is_DailyScores_write (e : Event) : bool :=
  match e with
  | Upsert_DailyScores _ | Update_DailyScores_bonus _ _ _
  | Upsert_DailyScores_rest_day _ _ => true
  | _ => false
  end.

(** The world: the store, the fault schedule of the storage layer (the
    head tells whether the next statement fails; an exhausted schedule means
    no further failure) and the trace, most recent event first. *)
Record World := {
  db : Db;
  faults : list bool;
  trace : list Event
}.

Inductive outcome (A : Type) :=
  | Resolved (a : A)
  | Rejected.
Arguments Resolved {A} a.
Arguments Rejected {A}.

Definition io (A : Type) : Type := World → outcome A * World.

#[global] Instance io_ret : MRet io := λ A a w, (Resolved a, w).
#[global] Instance io_bind : MBind io := λ A B k m w,
  match m w with
  | (Resolved a, w') => k a w'
  | (Rejected, w') => (Rejected, w')
  end.

(** [try { m } catch (e) { h }] *)
Definition try_catch {A} (m : io A) (h : io A) : io A := λ w,
  match m w with
  | (Resolved a, w') => (Resolved a, w')
  | (Rejected, w') => h w'
  end.

Definition console (e : Event) : io unit := λ w,
  (Resolved tt, {| db := db w; faults := faults w; trace := e :: trace w |}).

Definition next_fault (w : World) : bool * list bool :=
  match faults w with
  | [] => (false, [])
  | b :: fs => (b, fs)
  end.

(** A read statement ([db.get] / [db.all] behind a promise). *)
Definition getDb {A} (query : Db → A) : io A := λ w,
  let (failed, fs) := next_fault w in
  if failed then (Rejected, {| db := db w; faults := fs; trace := trace w |})
  else (Resolved (query (db w)), {| db := db w; faults := fs; trace := trace w |}).

(** A write statement ([db.run] behind a promise). *)
Definition runDb (e : Event) (stmt : Db → Db) : io unit := λ w,
  let (failed, fs) := next_fault w in
  if failed then (Rejected, {| db := db w; faults := fs; trace := trace w |})
  else (Resolved tt, {| db := stmt (db w); faults := fs; trace := e :: trace w |}).

(** [runDb] resolving to [this.changes], the number of rows the statement
    touched. *)
Definition runDb_changes (e : Event) (changes : Db → Z) (stmt : Db → Db) : io Z := λ w,
  let (failed, fs) := next_fault w in
  if failed then (Rejected, {| db := db w; faults := fs; trace := trace w |})
  else (Resolved (changes (db w)),
        {| db := stmt (db w); faults := fs; trace := e :: trace w |}).

(** An exception raised by the program's own code. *)
Definition throw {A} : io A := λ w, (Rejected, w).

(** A read whose error is only logged (the callback goes on). *)
Definition allDb_logged : io unit := λ w,
  let (_, fs) := next_fault w in
  (Resolved tt, {| db := db w; faults := fs; trace := trace w |}).

(** ** SQL statements of the engine *)

Module Sql.

(** [SELECT COUNT( * ) FROM Tasks WHERE target_date = ? AND is_done = TRUE] *)
Definition count_completed (date : Z) (d : Db) : Z :=
  Z.of_nat (length (filter (λ t, target_date t = date ∧ is_done t = true) (Tasks d))).

(** [SELECT COUNT( * ) FROM Tasks WHERE target_date = ? AND is_assigned = TRUE] *)
Definition count_assigned (date : Z) (d : Db) : Z :=
  Z.of_nat (length (filter (λ t, target_date t = date ∧ is_assigned t = true) (Tasks d))).

(** [SELECT SUM(weight_at_completion) FROM HabitCompletions WHERE
    completion_date = ?]: NULL without rows, otherwise the weights added
    up in row order. *)
Definition sum_weights (date : Z) (d : Db) : option float :=
  match filter (λ c, completion_date c = date) (HabitCompletions d) with
  | [] => None
  | rows => Some (foldl (λ acc c, acc + weight_at_completion c)%float 0%float rows)
  end.

(** [SELECT SUM(CASE WHEN type = ? THEN duration_minutes ELSE 0 END) FROM
    TimeLogs WHERE date_logged_for = ?] *)
Definition sum_minutes (ty : TimeLogType) (date : Z) (d : Db) : option Z :=
  match filter (λ l, date_logged_for l = date) (TimeLogs d) with
  | [] => None
  | rows => Some (foldl (λ acc l, acc + (if decide (type l = ty) then duration_minutes l else 0))
                    0 rows)
  end.

(** [SELECT MAX(date) FROM DailyScores] *)
Definition max_date (d : Db) : option Z :=
  map_fold (λ k _ acc, Some (match acc with None => k | Some j => Z.max j k end))
    None (DailyScores d).

(** The Composer's [INSERT INTO DailyScores (date, habit_score_component,
    ..., is_manually_marked_rest_day) ... ON CONFLICT(date) DO UPDATE SET]
    of these six columns: [notes] is not among them, so a new row gets the
    column default and an existing row keeps its value. *)
Definition upsert_DailyScores (v : ScoreData) (d : Db) : Db :=
  let old_notes := match DailyScores d !! sd_date v with
                   | Some r => notes r
                   | None => EmptyString
                   end in
  set_DailyScores (insert (sd_date v)
    {| habit_score_component := sd_habit_score_component v;
       task_score_component := sd_task_score_component v;
       time_score_component := sd_time_score_component v;
       streak_bonus_component := sd_streak_bonus_component v;
       total_daily_score := sd_total_daily_score v;
       is_manually_marked_rest_day := sd_is_manually_marked_rest_day v;
       notes := old_notes |}) d.

(** [INSERT INTO StreakData (date, current_streak_days) ... ON
    CONFLICT(date) DO UPDATE SET current_streak_days = ...] *)
Definition upsert_StreakData (date days : Z) (d : Db) : Db :=
  set_StreakData (insert date days) d.

(** [UPDATE DailyScores SET streak_bonus_component = ?, total_daily_score
    = ? WHERE date = ?] *)
Definition update_bonus (date : Z) (bonus total : float) (d : Db) : Db :=
  match DailyScores d !! date with
  | Some r =>
      set_DailyScores (insert date
        {| habit_score_component := habit_score_component r;
           task_score_component := task_score_component r;
           time_score_component := time_score_component r;
           streak_bonus_component := bonus;
           total_daily_score := total;
           is_manually_marked_rest_day := is_manually_marked_rest_day r;
           notes := notes r |}) d
  | None => d
  end.

End Sql.

(** ** The scoring engine *)

Section Engine.

(** [Math.log2] of the JavaScript engine the program runs on. *)
Variable Math_log2 : float → float.

(** *** Metric calculators *)

Definition calculateTaskScore (date : Z) : io float :=
  num_completed_today ← getDb (Sql.count_completed date);
  num_assigned_for_today ← getDb (Sql.count_assigned date);
  let task_score_raw :=
    if 0 <? num_assigned_for_today then
      (Z_to_float num_completed_today / Z_to_float num_assigned_for_today)%float
    else if 0 <? num_completed_today then Z_to_float num_completed_today
    else 0%float in
  mret task_score_raw.

Definition calculateHabitScore (date : Z) : io float :=
  _ ← allDb_logged;
  score ← getDb (Sql.sum_weights date);
  mret (or_zero score).

Definition calculateTimeScore (date : Z) : io float :=
  row ← getDb (λ d, (Sql.sum_minutes productive date d, Sql.sum_minutes distracting date d));
  let productiveMinutes := default 0 (fst row) in
  let distractingMinutes := default 0 (snd row) in
  let productiveHours := (Z_to_float productiveMinutes / 60)%float in
  let distractingHours := (Z_to_float distractingMinutes / 60)%float in
  let time_score_raw := ((productiveHours - distractingHours) * 10)%float in
  mret time_score_raw.

(** *** The Composer, [recalculateDailyScore] *)

(** Step 5, the streak logic: the streak to store for the day and the
    streak the bonus is computed from. *)
Definition composer_streak_logic (isRestDay : bool) (base_daily_score : float)
    (prevDayStreak : Z) : Z * Z :=
  let new_streak_days_for_storage := 0 in
  let current_streak_days_for_bonus := prevDayStreak in
  if isRestDay then
    let new_streak_days_for_storage := prevDayStreak in
    (new_streak_days_for_storage, current_streak_days_for_bonus)
  else if ge base_daily_score 60 then
    let new_streak_days_for_storage := prevDayStreak + 1 in
    let current_streak_days_for_bonus := new_streak_days_for_storage in
    (new_streak_days_for_storage, current_streak_days_for_bonus)
  else
    let new_streak_days_for_storage := 0 in
    let current_streak_days_for_bonus := 0 in
    (new_streak_days_for_storage, current_streak_days_for_bonus).

(** Step 6, the streak bonus. *)
Definition composer_streak_bonus (current_streak_days_for_bonus : Z) : float :=
  let streak_bonus_component := 0%float in
  if 0 <? current_streak_days_for_bonus then
    (Math_round (Math_log2 (2 + Z_to_float current_streak_days_for_bonus / 365) * 100) / 100)%float
  else streak_bonus_component.

Definition recalculateDailyScore (date : Z) : io ScoreData :=
  _ ← console (Log_recalculateDailyScore date);
  dailyStatusRow ← getDb (λ d, is_manually_marked_rest_day <$> DailyScores d !! date);
  let isRestDay := match dailyStatusRow with
                   | Some flag => flag =? 1
                   | None => false
                   end in
  task_score_ratio ← calculateTaskScore date;
  habit_score_sum_weights ← calculateHabitScore date;
  time_score_points ← calculateTimeScore date;
  let habit_points := (habit_score_sum_weights * 100)%float in
  let task_points := (task_score_ratio * 100)%float in
  let prevDate := date - 1 in
  prevStreakData ← getDb (λ d, StreakData d !! prevDate);
  let prevDayStreak := default 0 prevStreakData in
  let base_daily_score :=
    (habit_points * 0.45 + task_points * 0.45 + time_score_points * 0.1)%float in
  let '(new_streak_days_for_storage, current_streak_days_for_bonus) :=
    composer_streak_logic isRestDay base_daily_score prevDayStreak in
  let streak_bonus_component := composer_streak_bonus current_streak_days_for_bonus in
  let total_daily_score := (base_daily_score + streak_bonus_component)%float in
  let scoreDataForDb :=
    {| sd_date := date;
       sd_habit_score_component := habit_points;
       sd_task_score_component := task_points;
       sd_time_score_component := time_score_points;
       sd_streak_bonus_component := streak_bonus_component;
       sd_total_daily_score := total_daily_score;
       sd_is_manually_marked_rest_day := if isRestDay then 1 else 0 |} in
  _ ← runDb (Upsert_DailyScores scoreDataForDb) (Sql.upsert_DailyScores scoreDataForDb);
  _ ← runDb (Upsert_StreakData date new_streak_days_for_storage)
        (Sql.upsert_StreakData date new_streak_days_for_storage);
  mret scoreDataForDb.

(** *** The Forward Streak Reconciler, [recalculateStreaksForward] *)

(** Step 3 of the loop body. *)
Definition forward_streak_logic (isRestDay : bool) (baseScoreForThisDay : float)
    (actualPrevDayStreak : Z) : Z * Z :=
  let streakUsedForBonusCalculation := actualPrevDayStreak in
  if isRestDay then
    let newStreakForCurrentDay_storage := actualPrevDayStreak in
    (newStreakForCurrentDay_storage, streakUsedForBonusCalculation)
  else if ge baseScoreForThisDay 60 then
    let newStreakForCurrentDay_storage := actualPrevDayStreak + 1 in
    let streakUsedForBonusCalculation := newStreakForCurrentDay_storage in
    (newStreakForCurrentDay_storage, streakUsedForBonusCalculation)
  else
    let newStreakForCurrentDay_storage := 0 in
    let streakUsedForBonusCalculation := 0 in
    (newStreakForCurrentDay_storage, streakUsedForBonusCalculation).

(** Step 5 of the loop body. *)
Definition forward_new_bonus (streakUsedForBonusCalculation : Z) : float :=
  let newBonus := 0%float in
  if 0 <? streakUsedForBonusCalculation then
    (Math_round (Math_log2 (2 + Z_to_float streakUsedForBonusCalculation / 365) * 100) / 100)%float
  else newBonus.

Definition base_of_entry (e : DailyScoreRow) : float :=
  (habit_score_component e * 0.45 + task_score_component e * 0.45
   + time_score_component e * 0.1)%float.

(** One turn of the [while] loop, for the day [currentDate]. *)
Definition forward_day (currentDate : Z) : io unit :=
  dailyScoreEntry ← getDb (λ d, DailyScores d !! currentDate);
  match dailyScoreEntry with
  | None => console (Warn_no_DailyScores_entry currentDate)
  | Some entry =>
      let baseScoreForThisDay := base_of_entry entry in
      let isRestDay := is_manually_marked_rest_day entry =? 1 in
      let oldBonus := streak_bonus_component entry in
      let prevLoopDate := currentDate - 1 in
      prevDayStreakData ← getDb (λ d, StreakData d !! prevLoopDate);
      let actualPrevDayStreak := default 0 prevDayStreakData in
      let '(newStreakForCurrentDay_storage, streakUsedForBonusCalculation) :=
        forward_streak_logic isRestDay baseScoreForThisDay actualPrevDayStreak in
      _ ← runDb (Upsert_StreakData currentDate newStreakForCurrentDay_storage)
            (Sql.upsert_StreakData currentDate newStreakForCurrentDay_storage);
      let newBonus := forward_new_bonus streakUsedForBonusCalculation in
      if strict_neq newBonus oldBonus then
        let newTotalScoreForThisDay := (baseScoreForThisDay + newBonus)%float in
        runDb (Update_DailyScores_bonus currentDate newBonus newTotalScoreForThisDay)
          (Sql.update_bonus currentDate newBonus newTotalScoreForThisDay)
      else mret tt
  end.

(** [while (currentDate <= stopDateLoop)], with the number of days left as
    the structural argument. *)
Fixpoint forward_loop (days : nat) (currentDate : Z) : io unit :=
  match days with
  | O => mret tt
  | S days' =>
      _ ← forward_day currentDate;
      forward_loop days' (currentDate + 1)
  end.

Definition recalculateStreaksForward (startDateToRecalculateFrom : Z) : io unit :=
  _ ← console (Log_recalculateStreaksForward startDateToRecalculateFrom);
  lastScoreDateRow ← getDb Sql.max_date;
  match lastScoreDateRow with
  | None => mret tt
  | Some lastDayInLoop =>
      if lastDayInLoop <? startDateToRecalculateFrom then mret tt
      else forward_loop (Z.to_nat (lastDayInLoop - startDateToRecalculateFrom + 1))
             startDateToRecalculateFrom
  end.

End Engine.

(** ** The route handlers that trigger the engine *)

(** The status code a handler answers with. *)
Inductive Response := Status (code : Z).

(** The JSON body of [PUT /api/tasks/:id]; an absent field is [None]. *)
Record TaskUpdate := {
  new_description : option string;
  new_target_date : option Z;
  new_is_assigned : option bool;
  new_is_done : option bool
}.

Module RouteSql.

(** [INSERT INTO DailyScores (date, is_manually_marked_rest_day) VALUES
    (?, ?) ON CONFLICT(date) DO UPDATE SET is_manually_marked_rest_day =
    excluded.is_manually_marked_rest_day]; the other columns of a new row
    take their defaults. *)
Definition upsert_rest_day (date flag : Z) (d : Db) : Db :=
  match DailyScores d !! date with
  | Some r =>
      set_DailyScores (insert date
        {| habit_score_component := habit_score_component r;
           task_score_component := task_score_component r;
           time_score_component := time_score_component r;
           streak_bonus_component := streak_bonus_component r;
           total_daily_score := total_daily_score r;
           is_manually_marked_rest_day := flag;
           notes := notes r |}) d
  | None =>
      set_DailyScores (insert date
        {| habit_score_component := 0; task_score_component := 0;
           time_score_component := 0; streak_bonus_component := 0;
           total_daily_score := 0; is_manually_marked_rest_day := flag;
           notes := EmptyString |}) d
  end.

(** [DELETE FROM HabitCompletions WHERE habit_id = ? AND completion_date = ?] *)
Definition delete_completion (habit date : Z) (d : Db) : Db :=
  set_HabitCompletions
    (filter (λ c, ¬ (habit_id c = habit ∧ completion_date c = date))) d.

Definition completion_changes (habit date : Z) (d : Db) : Z :=
  Z.of_nat (length (filter (λ c, habit_id c = habit ∧ completion_date c = date)
                      (HabitCompletions d))).

(** [UPDATE Tasks SET <the fields present in the body> WHERE id = ?] *)
Definition apply_update (u : TaskUpdate) (t : TaskRow) : TaskRow :=
  {| task_id := task_id t;
     description := default (description t) (new_description u);
     target_date := default (target_date t) (new_target_date u);
     is_assigned := default (is_assigned t) (new_is_assigned u);
     is_done := default (is_done t) (new_is_done u) |}.

Definition update_task (id : Z) (u : TaskUpdate) (d : Db) : Db :=
  set_Tasks (map (λ t, if decide (task_id t = id) then apply_update u t else t)) d.

Definition task_changes (id : Z) (d : Db) : Z :=
  Z.of_nat (length (filter (λ t, task_id t = id) (Tasks d))).

(** [SELECT target_date FROM Tasks WHERE id = ?] *)
Definition select_target_date (id : Z) (d : Db) : option Z :=
  target_date <$> head (filter (λ t, task_id t = id) (Tasks d)).

End RouteSql.

Section Routes.

Variable Math_log2 : float → float.

(** [PUT /api/daily-status/:date] with body [{ is_rest_day }]. *)
Definition put_daily_status (date : Z) (is_rest_day : bool) : io Response :=
  try_catch
    (_ ← runDb (Upsert_DailyScores_rest_day date (if is_rest_day then 1 else 0))
           (RouteSql.upsert_rest_day date (if is_rest_day then 1 else 0));
     updatedScoreData ← recalculateDailyScore Math_log2 date;
     mret (Status 200))
    (_ ← console Console_error; mret (Status 500)).

(** [PUT /api/tasks/:id]. *)
Definition put_task (taskId : Z) (body : TaskUpdate) : io Response :=
  match body with
  | {| new_description := None; new_target_date := None;
       new_is_assigned := None; new_is_done := None |} => mret (Status 400)
  | _ =>
    try_catch
      (changes ← runDb_changes (Update_Tasks taskId) (RouteSql.task_changes taskId)
                   (RouteSql.update_task taskId body);
       if changes =? 0 then mret (Status 404)
       else
         task ← getDb (RouteSql.select_target_date taskId);
         _ ← match task with
             | Some taskDate =>
                 _ ← recalculateDailyScore Math_log2 taskDate;
                 let nextDayStr := taskDate + 1 in
                 try_catch (recalculateStreaksForward Math_log2 nextDayStr)
                   (console Console_error)
             | None => mret tt
             end;
         mret (Status 200))
      (_ ← console Console_error; mret (Status 500))
  end.


(** The same handler in the route file that requires [runDb] and both
    engine functions but leaves the arguments of [Date.UTC] out:
    [Date.UTC()] is NaN, the date built from it is invalid, and
    [toISOString] of an invalid date throws a [RangeError]. *)
Definition delete_habit_complete_elided (habitId date : Z) : io Response :=
  try_catch
    (changes ← runDb_changes (Delete_HabitCompletions habitId date)
                 (RouteSql.completion_changes habitId date)
                 (RouteSql.delete_completion habitId date);
     if changes =? 0 then mret (Status 404)
     else
       _ ← recalculateDailyScore Math_log2 date;
       nextDayStr ← throw;
       _ ← recalculateStreaksForward Math_log2 nextDayStr;
       mret (Status 200))
    (_ ← console Console_error; mret (Status 500)).

End Routes.

(** ** The rules of the specification, in its own words *)

Module Spec.

(** Base score: the weighted sum of the three components (§3, §4.2). *)
Definition base (habitComponent taskComponent timeComponent : float) : float :=
  (habitComponent * 0.45 + taskComponent * 0.45 + timeComponent * 0.10)%float.

(** [x >= y] on numbers, read off their comparison: [x] is equal to [y]
    or greater; not when it is smaller, nor when one of them is NaN. *)
Definition at_least (x y : float) : bool :=
  match PrimFloat.compare x y with
  | FEq | FGt => true
  | FLt | FNotComparable => false
  end.

(** The streak transition rule (§4.3): [(newStreak, bonusBasis)]. *)
Definition transition_rule (prevStreak : Z) (baseScore : float) (isRestDay : bool)
    : Z * Z :=
  if isRestDay then (prevStreak, prevStreak)
  else if at_least baseScore 60 then (prevStreak + 1, prevStreak + 1)
  else (0, 0).

(** Rounding to an integer, half away from zero: a number of magnitude
    [m * 2^e] with [e < 0] goes to [⌊m * 2^e + 1/2⌋], that is
    [⌊(2 m + 2^-e) / (2 * 2^-e)⌋], with its sign; a number with [e >= 0] is
    integral already; the zeros, the infinities and NaN are left as they
    are. *)
Definition round_half_away_from_zero (x : float) : float :=
  match Prim2SF x with
  | S754_finite s m e =>
      if 0 <=? e then x
      else
        let n := (2 * Z.pos m + 2 ^ (- e)) / (2 * 2 ^ (- e)) in
        Z_to_float (if s then - n else n)
  | _ => x
  end.

(** Rounding to 2 decimal places on the scaled value, [round(x*100)/100]
    (§4.2, numeric semantics). *)
Definition round2 (x : float) : float :=
  (round_half_away_from_zero (x * 100) / 100)%float.

(** [round2(log2(2 + bonusBasis/365))] (§4.2, step 7). *)
Definition log_bonus (log2 : float → float) (bonusBasis : Z) : float :=
  round2 (log2 (2 + Z_to_float bonusBasis / 365)%float).

(** The invariant of a [DailyScoreRecord] (§3). *)
Definition total_is_base_plus_bonus (r : DailyScoreRow) : Prop :=
  total_daily_score r =
    (habit_score_component r * 0.45 + task_score_component r * 0.45
     + time_score_component r * 0.10 + streak_bonus_component r)%float.

End Spec.

(** ** Functional readings of the engine on the store

    What the Composer and one turn of the Reconciler compute from a store
    when no statement fails; the lemmas below relate the effectful
    definitions to them. *)

Section Readings.

Variable Math_log2 : float → float.

Definition task_score_of (d : Db) (date : Z) : float :=
  if 0 <? Sql.count_assigned date d then
    (Z_to_float (Sql.count_completed date d) / Z_to_float (Sql.count_assigned date d))%float
  else if 0 <? Sql.count_completed date d then Z_to_float (Sql.count_completed date d)
  else 0%float.

Definition habit_score_of (d : Db) (date : Z) : float :=
  or_zero (Sql.sum_weights date d).

Definition time_score_of (d : Db) (date : Z) : float :=
  ((Z_to_float (default 0%Z (Sql.sum_minutes productive date d)) / 60
    - Z_to_float (default 0%Z (Sql.sum_minutes distracting date d)) / 60) * 10)%float.

Definition rest_flag_of (d : Db) (date : Z) : bool :=
  match is_manually_marked_rest_day <$> DailyScores d !! date with
  | Some flag => flag =? 1
  | None => false
  end.

Definition prev_streak_of (d : Db) (date : Z) : Z :=
  default 0 (StreakData d !! (date - 1)).

Definition composed_base (d : Db) (date : Z) : float :=
  (habit_score_of d date * 100 * 0.45 + task_score_of d date * 100 * 0.45
   + time_score_of d date * 0.1)%float.

Definition composed_streak (d : Db) (date : Z) : Z * Z :=
  composer_streak_logic (rest_flag_of d date) (composed_base d date) (prev_streak_of d date).

Definition composed (d : Db) (date : Z) : ScoreData :=
  let bonus := composer_streak_bonus Math_log2 (snd (composed_streak d date)) in
  {| sd_date := date;
     sd_habit_score_component := (habit_score_of d date * 100)%float;
     sd_task_score_component := (task_score_of d date * 100)%float;
     sd_time_score_component := time_score_of d date;
     sd_streak_bonus_component := bonus;
     sd_total_daily_score := (composed_base d date + bonus)%float;
     sd_is_manually_marked_rest_day := if rest_flag_of d date then 1 else 0 |}.

(** The store after a Composer run in which both writes succeed. *)
Definition composed_db (d : Db) (date : Z) : Db :=
  Sql.upsert_StreakData date (fst (composed_streak d date))
    (Sql.upsert_DailyScores (composed d date) d).

Definition forward_streak (d : Db) (e : DailyScoreRow) (currentDate : Z) : Z * Z :=
  forward_streak_logic (is_manually_marked_rest_day e =? 1) (base_of_entry e)
    (prev_streak_of d currentDate).

(** The store after a turn of the Reconciler's loop in which no statement
    fails. *)
Definition forward_day_db (d : Db) (currentDate : Z) : Db :=
  match DailyScores d !! currentDate with
  | None => d
  | Some e =>
      let '(newStreak, basis) := forward_streak d e currentDate in
      let d1 := Sql.upsert_StreakData currentDate newStreak d in
      let newBonus := forward_new_bonus Math_log2 basis in
      if strict_neq newBonus (streak_bonus_component e) then
        Sql.update_bonus currentDate newBonus (base_of_entry e + newBonus)%float d1
      else d1
  end.

(** What that turn records in the trace, most recent first. *)
Definition forward_day_events (d : Db) (currentDate : Z) : list Event :=
  match DailyScores d !! currentDate with
  | None => [Warn_no_DailyScores_entry currentDate]
  | Some e =>
      let '(newStreak, basis) := forward_streak d e currentDate in
      let newBonus := forward_new_bonus Math_log2 basis in
      if strict_neq newBonus (streak_bonus_component e) then
        [Update_DailyScores_bonus currentDate newBonus (base_of_entry e + newBonus)%float;
         Upsert_StreakData currentDate newStreak]
      else [Upsert_StreakData currentDate newStreak]
  end.

Fixpoint forward_loop_db (days : nat) (d : Db) (currentDate : Z) : Db :=
  match days with
  | O => d
  | S days' => forward_loop_db days' (forward_day_db d currentDate) (currentDate + 1)
  end.

Fixpoint forward_loop_events (days : nat) (d : Db) (currentDate : Z) : list Event :=
  match days with
  | O => []
  | S days' =>
      forward_loop_events days' (forward_day_db d currentDate) (currentDate + 1)
      ++ forward_day_events d currentDate
  end.

Definition reconciled_events (d : Db) (startDate : Z) : list Event :=
  match Sql.max_date d with
  | None => []
  | Some lastDay =>
      if lastDay <? startDate then []
      else forward_loop_events (Z.to_nat (lastDay - startDate + 1)) d startDate
  end ++ [Log_recalculateStreaksForward startDate].

Definition reconciled_db (d : Db) (startDate : Z) : Db :=
  match Sql.max_date d with
  | None => d
  | Some lastDay =>
      if lastDay <? startDate then d
      else forward_loop_db (Z.to_nat (lastDay - startDate + 1)) d startDate
  end.

(** A day of the Reconciler's range is settled in a store when the turn
    of the loop for it would find its streak and its bonus as it computes
    them. *)
Definition settled (d : Db) (currentDate : Z) : Prop :=
  match DailyScores d !! currentDate with
  | None => True
  | Some e =>
      StreakData d !! currentDate = Some (fst (forward_streak d e currentDate))
      ∧ (streak_bonus_component e
           = forward_new_bonus Math_log2 (snd (forward_streak d e currentDate))
         ∨ strict_neq (forward_new_bonus Math_log2 (snd (forward_streak d e currentDate)))
             (streak_bonus_component e) = false)
  end.

End Readings.

(** Hoare triples on the store and the trace, for runs under any fault
    schedule: from a store and trace satisfying [P], a resolved run ends in
    a store and trace satisfying [Q] of its value, and a rejected one in a
    store and trace satisfying [E]. *)
Definition triple {A} (P : Db → list Event → Prop) (m : io A)
    (Q : A → Db → list Event → Prop) (E : Db → list Event → Prop) : Prop :=
  ∀ w, P (db w) (trace w) →
    match m w with
    | (Resolved a, w') => Q a (db w') (trace w')
    | (Rejected, w') => E (db w') (trace w')
    end.

(** The singleton precondition: the run starts in this store and trace. *)
Definition at_ (d0 : Db) (t0 : list Event) : Db → list Event → Prop :=
  λ d t, d = d0 ∧ t = t0.

(** The invariant of §3 on every row of [DailyScores]. *)
Definition all_totals_consistent (d : Db) : Prop :=
  map_Forall (λ _ r, Spec.total_is_base_plus_bonus r) (DailyScores d).

(** The row [r'] has the notes of [r]. *)
Definition keeps_notes (r r' : DailyScoreRow) : Prop := notes r' = notes r.

(** The row [r'] differs from [r] in its bonus and total at most. *)
Definition keeps_inputs (r r' : DailyScoreRow) : Prop :=
  habit_score_component r' = habit_score_component r
  ∧ task_score_component r' = task_score_component r
  ∧ time_score_component r' = time_score_component r
  ∧ is_manually_marked_rest_day r' = is_manually_marked_rest_day r
  ∧ notes r' = notes r.

(** The writes recorded in a trace. *)
Definition writes (t : list Event) : list Event := filter (λ e, is_write e = true) t.
Definition DailyScores_writes (t : list Event) : list Event :=
  filter (λ e, is_DailyScores_write e = true) t.

(** A run from a world whose trace is empty, so that the trace of the
    result is what the run itself recorded. *)
Definition fresh (d : Db) : World := {| db := d; faults := []; trace := [] |}.

(** ** Worked data: the three-day scenario of the specification

    Days 1 to 3 each have one assigned task, one habit of weight 1 and six
    productive hours. *)

Definition scenario_task (id date : Z) (done : bool) : TaskRow :=
  {| task_id := id; description := "Task"; target_date := date;
     is_assigned := true; is_done := done |}.

Definition scenario_completion (id date : Z) : HabitCompletionRow :=
  {| habit_id := id; completion_date := date; weight_at_completion := 1 |}.

Definition scenario_log (date : Z) : TimeLogRow :=
  {| type := productive; date_logged_for := date; duration_minutes := 360 |}.

Definition scenario_sources (day1_done : bool) : Db :=
  {| Tasks := [scenario_task 1 1 day1_done; scenario_task 2 2 true; scenario_task 3 3 true];
     HabitCompletions := [scenario_completion 1 1; scenario_completion 2 2;
                          scenario_completion 3 3];
     TimeLogs := [scenario_log 1; scenario_log 2; scenario_log 3];
     DailyScores := ∅; StreakData := ∅ |}.

(** The store once the three days have been composed in order. *)
Definition scenario_db : Db :=
  composed_db log2_linear
    (composed_db log2_linear (composed_db log2_linear (scenario_sources true) 1) 2) 3.



(** The scenario after day 1's task has been marked not done, the three days
    having been scored before. *)
Definition undone_db : Db := set_Tasks (λ _, Tasks (scenario_sources false)) scenario_db.

(** A storage layer that serves eight statements and fails the ninth: in a
    Composer run, the ninth statement is the [StreakData] upsert. *)
Definition fails_at_StreakData_upsert : list bool := replicate 8 false ++ [true].

(** Two numbers are the same up to the sign of zero: identical, or both
    zero. That is what [===], by which the Reconciler compares a new bonus
    with the stored one, decides on numbers. *)
Definition same_number (stored computed : float) : Prop :=
  stored = computed
  ∨ (PrimFloat.eqb stored 0 = true ∧ PrimFloat.eqb computed 0 = true).

(** [Math.log2] is not negative at the argument the bonus of a basis is
    computed from. For a basis that is not negative the argument,
    [2 + basis/365], is at least 2, and its logarithm at least 1. *)
Definition log2_not_negative_at (L : float → float) (basis : Z) : Prop :=
  PrimFloat.ltb (L (2 + Z_to_float basis / 365)%float) 0 = false.

(** No stored bonus is NaN. *)
Definition bonuses_are_numbers (d : Db) : Prop :=
  map_Forall (λ _ r, is_nan (streak_bonus_component r) = false) (DailyScores d).

(** ** Further handlers of the server *)

(** What [GET /api/streak] answers. *)
Inductive StreakResponse :=
  | Streak_ok (current_streak_days : Z)
  | Streak_error.

(** What [GET /api/daily-score/:date] answers: the stored row, the data the
    Composer resolved to, or an error. *)
Inductive ScoreResponse :=
  | Score_stored (row : DailyScoreRow)
  | Score_calculated (data : ScoreData)
  | Score_error.

Module ServerSql.

(** [SELECT current_streak_days FROM StreakData ORDER BY date DESC LIMIT 1] *)
Definition latest_streak (d : Db) : option Z :=
  snd <$> map_fold (λ k v acc, match acc with
                               | None => Some (k, v)
                               | Some (j, u) => if j <? k then Some (k, v) else Some (j, u)
                               end)
            None (StreakData d).

End ServerSql.

Section Server.

Variable Math_log2 : float → float.

(** [GET /api/streak]. *)
Definition get_streak : io StreakResponse :=
  try_catch
    (latestStreakEntry ← getDb ServerSql.latest_streak;
     let currentStreak := match latestStreakEntry with
                          | Some current_streak_days => current_streak_days
                          | None => 0
                          end in
     mret (Streak_ok currentStreak))
    (_ ← console Console_error; mret Streak_error).

(** [GET /api/daily-score/:date]: the stored row if there is one, otherwise
    the score is calculated, saved and answered. *)
Definition get_daily_score (date : Z) : io ScoreResponse :=
  try_catch
    (row ← getDb (λ d, DailyScores d !! date);
     match row with
     | Some r => mret (Score_stored r)
     | None =>
         try_catch
           (calculatedScoreData ← recalculateDailyScore Math_log2 date;
            mret (Score_calculated calculatedScoreData))
           (_ ← console Console_error; mret Score_error)
     end)
    (_ ← console Console_error; mret Score_error).

End Server.

(** The body of a task update names no field. *)
Definition no_field (u : TaskUpdate) : bool :=
  match u with
  | {| new_description := None; new_target_date := None;
       new_is_assigned := None; new_is_done := None |} => true
  | _ => false
  end.

(** The events a date's composition and the reconciliation from the next
    day record when no statement fails, most recent first. *)
Definition recalculated_events (L : float → float) (d : Db) (date : Z) : list Event :=
  reconciled_events L (composed_db L d date) (date + 1)
  ++ [Upsert_StreakData date (fst (composed_streak d date));
      Upsert_DailyScores (composed L d date);
      Log_recalculateDailyScore date].

(** The body [{ is_done: false }] of a task update. *)
Definition mark_not_done : TaskUpdate :=
  {| new_description := None; new_target_date := None;
     new_is_assigned := None; new_is_done := Some false |}.

(** A storage layer that serves a task update up to the end of the
    Composer (eleven statements) and fails the next statement, the
    Reconciler's first. *)
Definition fails_at_reconciliation (then_ : list bool) : list bool :=
  replicate 11 false ++ true :: then_.

(** The body [{ target_date: ... }] of a task update. *)
Definition move_to (date : Z) : TaskUpdate :=
  {| new_description := None; new_target_date := Some date;
     new_is_assigned := None; new_is_done := None |}.

(** The world of a reconciliation from day 2 after day 1 was recomposed,
    with a storage layer that fails the fifth statement (the read of day
    3's row). *)
Definition failing_reconciliation : World :=
  {| db := composed_db log2_linear undone_db 1;
     faults := [false; false; false; false; true]; trace := [] |}.

#[local] Arguments composer_streak_logic : simpl never.
#[local] Arguments forward_streak_logic : simpl never.
#[local] Arguments composer_streak_bonus : simpl never.
#[local] Arguments forward_new_bonus : simpl never.
#[local] Arguments Sql.upsert_DailyScores : simpl never.
#[local] Arguments Sql.upsert_StreakData : simpl never.
#[local] Arguments Sql.update_bonus : simpl never.
#[local] Arguments Sql.max_date : simpl never.
#[local] Arguments base_of_entry : simpl never.

(** ** Reasoning about runs *)

Section Triples.
Context {A B : Type}.
Implicit Types (P E : Db → list Event → Prop).

Lemma triple_ret P (a : A) (Q : A → Db → list Event → Prop) E :
  (∀ d t, P d t → Q a d t) → triple P (mret a) Q E.
Proof. intros H w Hw. simpl. auto. Qed.

Lemma triple_bind P (m : io A) (k : A → io B) R (Q : B → Db → list Event → Prop) E :
  triple P m R E → (∀ a, triple (R a) (k a) Q E) → triple P (m ≫= k) Q E.
Proof.
  intros Hm Hk w Hw. specialize (Hm w Hw).
  unfold mbind, io_bind. destruct (m w) as [[a|] w']; [by apply Hk | done].
Qed.

Lemma triple_getDb P (q : Db → A) E :
  (∀ d t, P d t → E d t) →
  triple P (getDb q) (λ a d t, P d t ∧ a = q d) E.
Proof.
  intros HE [d fs t] Hw. unfold getDb, next_fault. simpl in *.
  destruct fs as [|[] fs]; simpl; auto.
Qed.

Lemma triple_conseq P P' (m : io A) (Q Q' : A → Db → list Event → Prop) E E' :
  triple P' m Q' E' → (∀ d t, P d t → P' d t) → (∀ a d t, Q' a d t → Q a d t) →
  (∀ d t, E' d t → E d t) → triple P m Q E.
Proof.
  intros Hm HP HQ HE w Hw. specialize (Hm w (HP _ _ Hw)).
  destruct (m w) as [[a|] w']; auto.
Qed.

Lemma triple_try_catch P (m h : io A) (Q : A → Db → list Event → Prop) E E' :
  triple P m Q E' → triple E' h Q E → triple P (try_catch m h) Q E.
Proof.
  intros Hm Hh w Hw. specialize (Hm w Hw). unfold try_catch.
  destruct (m w) as [[a|] w']; [done | by apply Hh].
Qed.
End Triples.

Lemma triple_runDb P e f E :
  (∀ d t, P d t → E d t) →
  triple P (runDb e f) (λ _ d' t', ∃ d t, P d t ∧ d' = f d ∧ t' = e :: t) E.
Proof.
  intros HE [d fs t] Hw. unfold runDb, next_fault. simpl in *.
  destruct fs as [|[] fs]; simpl; eauto.
Qed.

Lemma triple_console P e E :
  triple P (console e) (λ _ d t', ∃ t, P d t ∧ t' = e :: t) E.
Proof. intros [d fs t] Hw. simpl in *. eauto. Qed.

Lemma triple_allDb_logged P E :
  triple P allDb_logged (λ _ d t, P d t) E.
Proof. intros [d fs t] Hw. unfold allDb_logged, next_fault. simpl in *. by destruct fs. Qed.

Section At.
Context {A B : Type}.
Implicit Types (E : Db → list Event → Prop).

Lemma triple_of_at (P : Db → list Event → Prop) (m : io A) Q E :
  (∀ d0 t0, P d0 t0 → triple (at_ d0 t0) m Q E) → triple P m Q E.
Proof. intros H w Hw. by apply (H _ _ Hw w). Qed.

Lemma at_ret d0 t0 (a : A) (Q : A → Db → list Event → Prop) E :
  Q a d0 t0 → triple (at_ d0 t0) (mret a) Q E.
Proof. intros H. apply triple_ret. by intros d t [-> ->]. Qed.

(** A sub-run that only reads: it resolves to [v] in the same store and
    trace, or is rejected there. *)
Lemma at_read d0 t0 (m : io A) (v : A) (k : A → io B) Q E :
  triple (at_ d0 t0) m (λ a d t, at_ d0 t0 d t ∧ a = v) (at_ d0 t0) →
  E d0 t0 →
  triple (at_ d0 t0) (k v) Q E →
  triple (at_ d0 t0) (m ≫= k) Q E.
Proof.
  intros Hm HE Hk. eapply triple_bind.
  - eapply triple_conseq; [exact Hm | done | done | by intros d t [-> ->]].
  - intros a w [Hw ->]. by apply Hk.
Qed.

Lemma at_getDb_read d0 t0 (q : Db → A) :
  triple (at_ d0 t0) (getDb q) (λ a d t, at_ d0 t0 d t ∧ a = q d0) (at_ d0 t0).
Proof.
  eapply triple_conseq; [by apply triple_getDb | done | | done].
  by intros a d t [[-> ->] ->].
Qed.

Lemma at_getDb d0 t0 (q : Db → A) (k : A → io B) Q E :
  E d0 t0 → triple (at_ d0 t0) (k (q d0)) Q E →
  triple (at_ d0 t0) (getDb q ≫= k) Q E.
Proof. intros. eapply at_read; eauto using at_getDb_read. Qed.
End At.

Section AtUnit.
Context {B : Type}.
Implicit Types (E : Db → list Event → Prop).

Lemma at_runDb_last d0 t0 e f (Q : () → Db → list Event → Prop) E :
  E d0 t0 → Q () (f d0) (e :: t0) → triple (at_ d0 t0) (runDb e f) Q E.
Proof.
  intros HE HQ. eapply triple_conseq; [by apply triple_runDb | done | | ].
  - by intros [] d t (? & ? & [-> ->] & -> & ->).
  - by intros d t [-> ->].
Qed.

Lemma at_runDb d0 t0 e f (k : () → io B) Q E :
  E d0 t0 → triple (at_ (f d0) (e :: t0)) (k ()) Q E →
  triple (at_ d0 t0) (runDb e f ≫= k) Q E.
Proof.
  intros HE Hk. eapply triple_bind.
  - apply (at_runDb_last _ _ _ _ (λ _, at_ (f d0) (e :: t0))); [exact HE | done].
  - by intros [].
Qed.

Lemma at_console_last d0 t0 e (Q : () → Db → list Event → Prop) E :
  Q () d0 (e :: t0) → triple (at_ d0 t0) (console e) Q E.
Proof. intros HQ [d fs t] [Hd Ht]. simpl in *. by subst. Qed.

Lemma at_console d0 t0 e (k : () → io B) Q E :
  triple (at_ d0 (e :: t0)) (k ()) Q E →
  triple (at_ d0 t0) (console e ≫= k) Q E.
Proof.
  intros Hk. eapply triple_bind.
  - by apply (at_console_last _ _ _ (λ _, at_ d0 (e :: t0))).
  - by intros [].
Qed.

Lemma at_allDb_logged d0 t0 (k : () → io B) Q E :
  triple (at_ d0 t0) (k ()) Q E →
  triple (at_ d0 t0) (allDb_logged ≫= k) Q E.
Proof.
  intros Hk. eapply triple_bind; [apply triple_allDb_logged | by intros []].
Qed.
End AtUnit.

Lemma calculateTaskScore_at d0 t0 date :
  triple (at_ d0 t0) (calculateTaskScore date)
    (λ a d t, at_ d0 t0 d t ∧ a = task_score_of d0 date) (at_ d0 t0).
Proof.
  unfold calculateTaskScore.
  apply at_getDb; [done|]. apply at_getDb; [done|]. by apply at_ret.
Qed.

Lemma calculateHabitScore_at d0 t0 date :
  triple (at_ d0 t0) (calculateHabitScore date)
    (λ a d t, at_ d0 t0 d t ∧ a = habit_score_of d0 date) (at_ d0 t0).
Proof.
  unfold calculateHabitScore.
  apply at_allDb_logged. apply at_getDb; [done|]. by apply at_ret.
Qed.

Lemma calculateTimeScore_at d0 t0 date :
  triple (at_ d0 t0) (calculateTimeScore date)
    (λ a d t, at_ d0 t0 d t ∧ a = time_score_of d0 date) (at_ d0 t0).
Proof.
  unfold calculateTimeScore. apply at_getDb; [done|]. by apply at_ret.
Qed.

(** What a Composer run does to the store and the trace, whatever fails. *)
Lemma recalculateDailyScore_at L d0 t0 date :
  triple (at_ d0 t0) (recalculateDailyScore L date)
    (λ sd d t, sd = composed L d0 date ∧ d = composed_db L d0 date
               ∧ t = Upsert_StreakData date (fst (composed_streak d0 date))
                     :: Upsert_DailyScores (composed L d0 date)
                     :: Log_recalculateDailyScore date :: t0)
    (λ d t, (d = d0 ∧ t = Log_recalculateDailyScore date :: t0)
            ∨ (d = Sql.upsert_DailyScores (composed L d0 date) d0
               ∧ t = Upsert_DailyScores (composed L d0 date)
                     :: Log_recalculateDailyScore date :: t0)).
Proof.
  unfold recalculateDailyScore.
  apply at_console. apply at_getDb; [by left|].
  eapply at_read; [apply calculateTaskScore_at | by left |].
  eapply at_read; [apply calculateHabitScore_at | by left |].
  eapply at_read; [apply calculateTimeScore_at | by left |].
  apply at_getDb; [by left|].
  unfold composed_db, composed.
  change (composer_streak_logic _ _ _) with (composed_streak d0 date).
  destruct (composed_streak d0 date) as [ns basis]. simpl.
  apply at_runDb; [by left|]. apply at_runDb; [by right|]. by apply at_ret.
Qed.

(** What one turn of the Reconciler's loop does, whatever fails. *)
Lemma forward_day_at L d0 t0 c :
  triple (at_ d0 t0) (forward_day L c)
    (λ _ d t, d = forward_day_db L d0 c ∧ t = forward_day_events L d0 c ++ t0)
    (λ d t, (d = d0 ∧ t = t0) ∨
            ∃ e, DailyScores d0 !! c = Some e ∧
                 d = Sql.upsert_StreakData c (fst (forward_streak d0 e c)) d0 ∧
                 t = Upsert_StreakData c (fst (forward_streak d0 e c)) :: t0).
Proof.
  unfold forward_day, forward_day_db, forward_day_events.
  apply at_getDb; [by left|].
  destruct (DailyScores d0 !! c) as [e|] eqn:He.
  - apply at_getDb; [by left|].
    change (forward_streak_logic _ _ _) with (forward_streak d0 e c).
    destruct (forward_streak d0 e c) as [ns basis] eqn:Hs. simpl.
    apply at_runDb; [by left|].
    destruct (strict_neq _ _).
    + apply at_runDb_last; [right; exists e; by rewrite Hs | done].
    + by apply at_ret.
  - by apply at_console_last.
Qed.

(** The same runs when no statement fails. *)
Ltac io_unfold :=
  unfold mbind, io_bind, mret, io_ret, console, getDb, runDb, allDb_logged, next_fault.

Lemma recalculateDailyScore_ok L date w :
  faults w = [] →
  recalculateDailyScore L date w =
    (Resolved (composed L (db w) date),
     {| db := composed_db L (db w) date; faults := [];
        trace := Upsert_StreakData date (fst (composed_streak (db w) date))
                 :: Upsert_DailyScores (composed L (db w) date)
                 :: Log_recalculateDailyScore date :: trace w |}).
Proof.
  destruct w as [d fs t]; simpl; intros ->.
  unfold recalculateDailyScore, composed_db, composed,
    calculateTaskScore, calculateHabitScore, calculateTimeScore.
  io_unfold. simpl.
  change (composer_streak_logic _ _ _) with (composed_streak d date).
  by destruct (composed_streak d date) as [ns basis].
Qed.

Lemma forward_day_ok L c w :
  faults w = [] →
  forward_day L c w =
    (Resolved (),
     {| db := forward_day_db L (db w) c; faults := [];
        trace := forward_day_events L (db w) c ++ trace w |}).
Proof.
  destruct w as [d fs t]; simpl; intros ->.
  unfold forward_day, forward_day_db, forward_day_events.
  io_unfold. simpl.
  destruct (DailyScores d !! c) as [e|]; simpl; [|done].
  change (forward_streak_logic _ _ _) with (forward_streak d e c).
  destruct (forward_streak d e c) as [ns basis]. simpl.
  by destruct (strict_neq _ _).
Qed.

Lemma forward_loop_ok L days c w :
  faults w = [] →
  forward_loop L days c w =
    (Resolved (),
     {| db := forward_loop_db L days (db w) c; faults := [];
        trace := forward_loop_events L days (db w) c ++ trace w |}).
Proof.
  revert c w. induction days as [|days IH]; intros c w Hw.
  - destruct w; simpl in *; by subst.
  - simpl. unfold mbind, io_bind. rewrite forward_day_ok by done.
    rewrite IH by done. simpl. by rewrite app_assoc.
Qed.

Lemma recalculateStreaksForward_ok L start w :
  faults w = [] →
  recalculateStreaksForward L start w =
    (Resolved (),
     {| db := reconciled_db L (db w) start; faults := [];
        trace := reconciled_events L (db w) start ++ trace w |}).
Proof.
  destruct w as [d fs t]; simpl; intros ->.
  unfold recalculateStreaksForward, reconciled_db, reconciled_events.
  io_unfold. simpl. destruct (Sql.max_date d) as [last|]; [|done].
  destruct (last <? start); [done|].
  rewrite forward_loop_ok by done. simpl. by rewrite <- app_assoc.
Qed.

(** ** Numbers *)

Lemma SFcompare_antisym a b :
  SFcompare b a = option_map CompOpp (SFcompare a b).
Proof.
  destruct a as [[]|[]| |[] ma ea], b as [[]|[]| |[] mb eb]; simpl; try reflexivity.
  - rewrite (Z.compare_antisym ea eb). destruct (ea ?= eb); simpl; try reflexivity.
    rewrite !Pos.compare_cont_spec. simpl.
    rewrite (Pos.compare_antisym ma mb). by destruct (ma ?= mb)%positive.
  - rewrite (Z.compare_antisym ea eb). destruct (ea ?= eb); simpl; try reflexivity.
    rewrite !Pos.compare_cont_spec. simpl.
    rewrite (Pos.compare_antisym ma mb). by destruct (ma ?= mb)%positive.
Qed.

(** The program's [>=] is the comparison of the two numbers. *)
Lemma ge_at_least x y : ge x y = Spec.at_least x y.
Proof.
  unfold ge, Spec.at_least. rewrite FloatAxioms.leb_spec, FloatAxioms.compare_spec.
  unfold SFleb. rewrite (SFcompare_antisym (Prim2SF x) (Prim2SF y)).
  by destruct (SFcompare (Prim2SF x) (Prim2SF y)) as [[]|].
Qed.

(** [x === y] on numbers: the two are identical, or both are zero. *)
Lemma strict_eq_cases x y :
  strict_eq x y = true →
  x = y ∨ (PrimFloat.eqb x 0 = true ∧ PrimFloat.eqb y 0 = true).
Proof.
  unfold strict_eq. rewrite !FloatAxioms.eqb_spec.
  change (Prim2SF 0) with (S754_zero false). intros H.
  destruct (Prim2SF x) as [sx|sx| |sx mx ex] eqn:Ex,
           (Prim2SF y) as [sy|sy| |sy my ey] eqn:Ey;
    try (by right); try (by destruct sx); try (by destruct sy);
    left; apply Prim2SF_inj; rewrite Ex, Ey; unfold SFeqb in H; simpl in H.
  - by destruct sx, sy.
  - destruct sx, sy; try done;
      destruct (ex ?= ey) eqn:Hc; try done;
      apply Z.compare_eq in Hc; subst;
      rewrite Pos.compare_cont_spec in H; simpl in H;
      destruct (mx ?= my)%positive eqn:Hm; try done;
      apply Pos.compare_eq in Hm; by subst.
Qed.

(** The quotient and the remainder [Math_round] takes from the bits of a
    magnitude give [⌊m / 2^k + 1/2⌋]. *)
Lemma round_up_div (m k : Z) :
  0 ≤ m → 0 < k →
  (if Z.shiftl 1 (k - 1) <=? Z.land m (Z.ones k) then Z.shiftr m k + 1 else Z.shiftr m k)
  = (2 * m + 2 ^ k) / (2 * 2 ^ k).
Proof.
  intros Hm Hk.
  rewrite Z.shiftl_1_l, Z.land_ones, Z.shiftr_div_pow2 by lia.
  assert (0 < 2 ^ (k - 1)) as Hh by (apply Z.pow_pos_nonneg; lia).
  assert (2 ^ k = 2 * 2 ^ (k - 1)) as Hp.
  { replace k with (1 + (k - 1)) at 1 by lia. by rewrite Z.pow_add_r by lia. }
  pose proof (Z.div_mod m (2 ^ k) ltac:(lia)) as Hdm.
  pose proof (Z.mod_pos_bound m (2 ^ k) ltac:(lia)) as Hb.
  set (q := m / 2 ^ k) in *. set (r := m mod 2 ^ k) in *.
  rewrite Hp in *. set (h := 2 ^ (k - 1)) in *.
  destruct (Z.leb_spec h r).
  - apply Z.div_unique with (r := 2 * r - 2 * h); lia.
  - apply Z.div_unique with (r := 2 * r + 2 * h); lia.
Qed.

(** On a number that is not negative, [Math.round] rounds half away from
    zero. *)
Lemma Math_round_half_away x :
  PrimFloat.ltb x 0 = false → Math_round x = Spec.round_half_away_from_zero x.
Proof.
  intros Hx. unfold Math_round, Spec.round_half_away_from_zero.
  rewrite FloatAxioms.ltb_spec in Hx. change (Prim2SF 0) with (S754_zero false) in Hx.
  destruct (Prim2SF x) as [| | |s m e]; try done.
  destruct s; [done|].
  destruct (Z.leb_spec 0 e); [done|]. cbv zeta.
  by rewrite round_up_div by lia.
Qed.

(** On negative ties the two differ: [Math.round(-2.5)] is [-2]. *)
Lemma Math_round_negative_tie :
  Math_round (-2.5) = (-2)%float
  ∧ Spec.round_half_away_from_zero (-2.5) = (-3)%float.
Proof. split; vm_compute; reflexivity. Qed.

Lemma binary_round_aux_not_negative mx ex lx :
  SFltb (binary_round_aux prec emax false mx ex lx) (S754_zero false) = false.
Proof.
  unfold binary_round_aux.
  destruct (shr_fexp prec emax mx ex lx) as [mrs' e'].
  destruct (shr_fexp prec emax _ e' loc_Exact) as [mrs'' e''].
  destruct (shr_m mrs''); [done| |done].
  by destruct (e'' <=? emax - prec).
Qed.

(** Scaling by 100 keeps a number that is not negative so. *)
Lemma scaled_not_negative (v : float) :
  PrimFloat.ltb v 0 = false → PrimFloat.ltb (v * 100) 0 = false.
Proof.
  rewrite !FloatAxioms.ltb_spec, FloatAxioms.mul_spec.
  change (Prim2SF 0) with (S754_zero false).
  set (c := Prim2SF 100). vm_compute in c. subst c.
  destruct (Prim2SF v) as [[]|[]| |[] m e]; try done.
  intros _. unfold SFmul. apply binary_round_aux_not_negative.
Qed.

(** ** The properties *)

(** C8. When no task is assigned for a date, [calculateTaskScore] resolves
    to the number of completed tasks if there is one, and to [0] if there is
    none (all statements succeeding). *)
Theorem calculateTaskScore_none_assigned (w : World) (date : Z) :
  faults w = [] →
  Sql.count_assigned date (db w) = 0 →
  (0 < Sql.count_completed date (db w) →
     fst (calculateTaskScore date w)
     = Resolved (Z_to_float (Sql.count_completed date (db w))))
  ∧ (Sql.count_completed date (db w) = 0 →
     fst (calculateTaskScore date w) = Resolved 0%float).
Proof.
  destruct w as [d fs t]; simpl; intros -> Hassigned.
  unfold calculateTaskScore. io_unfold. simpl. rewrite Hassigned. simpl.
  split; intros Hc.
  - by rewrite (proj2 (Z.ltb_lt _ _) Hc).
  - by rewrite Hc.
Qed.

Lemma calculateTaskScore_none_assigned_witness :
  fst (calculateTaskScore 2
         (fresh {| Tasks := [{| task_id := 1; description := "Unplanned"; target_date := 2;
                                is_assigned := false; is_done := true |}];
                   HabitCompletions := []; TimeLogs := [];
                   DailyScores := ∅; StreakData := ∅ |}))
  = Resolved 1%float.
Proof.
  refine (proj1 (calculateTaskScore_none_assigned _ 2 _ _) _);
    [reflexivity | reflexivity | reflexivity].
Defined.

(** The two transcriptions of the streak logic are the rule of §4.3. *)
Lemma composer_streak_logic_rule isRestDay baseScore prevStreak :
  composer_streak_logic isRestDay baseScore prevStreak
  = Spec.transition_rule prevStreak baseScore isRestDay.
Proof.
  unfold composer_streak_logic, Spec.transition_rule. rewrite <- ge_at_least.
  destruct isRestDay; [done|]. by destruct (ge baseScore 60).
Qed.

Lemma forward_streak_logic_rule isRestDay baseScore prevStreak :
  forward_streak_logic isRestDay baseScore prevStreak
  = Spec.transition_rule prevStreak baseScore isRestDay.
Proof.
  unfold forward_streak_logic, Spec.transition_rule. rewrite <- ge_at_least.
  destruct isRestDay; [done|]. by destruct (ge baseScore 60).
Qed.

Lemma composed_db_StreakData L d date :
  StreakData (composed_db L d date) = <[date := fst (composed_streak d date)]> (StreakData d).
Proof. done. Qed.

Lemma forward_day_db_StreakData L d c e :
  DailyScores d !! c = Some e →
  StreakData (forward_day_db L d c) = <[c := fst (forward_streak d e c)]> (StreakData d).
Proof.
  intros He. unfold forward_day_db. rewrite He.
  destruct (forward_streak d e c) as [ns basis]. simpl.
  destruct (strict_neq _ _); [|done].
  unfold Sql.update_bonus. simpl. by rewrite He.
Qed.



(** *** The Composer run twice *)

Lemma Db_eq (d1 d2 : Db) :
  Tasks d1 = Tasks d2 → HabitCompletions d1 = HabitCompletions d2 →
  TimeLogs d1 = TimeLogs d2 → DailyScores d1 = DailyScores d2 →
  StreakData d1 = StreakData d2 → d1 = d2.
Proof. destruct d1, d2; simpl; by intros -> -> -> -> ->. Qed.

Lemma composed_db_DailyScores L d date :
  DailyScores (composed_db L d date)
  = <[date := {| habit_score_component := sd_habit_score_component (composed L d date);
                 task_score_component := sd_task_score_component (composed L d date);
                 time_score_component := sd_time_score_component (composed L d date);
                 streak_bonus_component := sd_streak_bonus_component (composed L d date);
                 total_daily_score := sd_total_daily_score (composed L d date);
                 is_manually_marked_rest_day :=
                   sd_is_manually_marked_rest_day (composed L d date);
                 notes := match DailyScores d !! date with
                          | Some r => notes r
                          | None => EmptyString
                          end |}]> (DailyScores d).
Proof. done. Qed.

Lemma rest_flag_of_composed_db L d date :
  rest_flag_of (composed_db L d date) date = rest_flag_of d date.
Proof.
  unfold rest_flag_of at 1. rewrite composed_db_DailyScores, lookup_insert_eq. simpl.
  by destruct (rest_flag_of d date).
Qed.

Lemma prev_streak_of_composed_db L d date :
  prev_streak_of (composed_db L d date) date = prev_streak_of d date.
Proof.
  unfold prev_streak_of. rewrite composed_db_StreakData, lookup_insert_ne by lia. done.
Qed.

Lemma composed_streak_composed_db L d date :
  composed_streak (composed_db L d date) date = composed_streak d date.
Proof.
  unfold composed_streak.
  rewrite rest_flag_of_composed_db, prev_streak_of_composed_db. done.
Qed.

Lemma composed_composed_db L d date :
  composed L (composed_db L d date) date = composed L d date.
Proof.
  unfold composed.
  rewrite composed_streak_composed_db, rest_flag_of_composed_db. done.
Qed.

Lemma composed_db_idempotent L d date :
  composed_db L (composed_db L d date) date = composed_db L d date.
Proof.
  apply Db_eq; try done.
  - rewrite (composed_db_DailyScores L (composed_db L d date)).
    rewrite composed_composed_db.
    rewrite !(composed_db_DailyScores L d).
    rewrite lookup_insert_eq, insert_insert_eq. done.
  - rewrite (composed_db_StreakData L (composed_db L d date)).
    rewrite composed_streak_composed_db, composed_db_StreakData.
    by rewrite insert_insert_eq.
Qed.

(** C9. The Composer is idempotent: with all statements succeeding, a
    second run for the same date, the source data being what it was,
    resolves to the same record as the first and leaves the store as the
    first run left it. *)
Theorem recalculateDailyScore_idempotent (L : float → float) (w : World) (date : Z) :
  faults w = [] →
  ∃ record w1 w2,
    recalculateDailyScore L date w = (Resolved record, w1)
    ∧ recalculateDailyScore L date w1 = (Resolved record, w2)
    ∧ db w2 = db w1.
Proof.
  intros Hw. do 3 eexists. split; [|split].
  - by apply recalculateDailyScore_ok.
  - rewrite recalculateDailyScore_ok by done. cbn [db].
    by rewrite composed_composed_db.
  - cbn [db]. apply composed_db_idempotent.
Qed.

Lemma recalculateDailyScore_idempotent_witness :
  ∃ record w1 w2,
    recalculateDailyScore log2_linear 1 (fresh (scenario_sources true)) = (Resolved record, w1)
    ∧ recalculateDailyScore log2_linear 1 w1 = (Resolved record, w2)
    ∧ db w2 = db w1
    ∧ sd_total_daily_score record = 97%float.
Proof.
  destruct (recalculateDailyScore_idempotent log2_linear (fresh (scenario_sources true)) 1
              eq_refl) as (record & w1 & w2 & H1 & H2 & H3).
  exists record, w1, w2. repeat split; try assumption.
  vm_compute in H1. by injection H1 as <- _.
Defined.

(** *** Invariants of runs under any fault schedule *)

Lemma triple_inv_run {A} (P : Db → list Event → Prop) (m : io A) (w : World) :
  triple P m (λ _, P) P → P (db w) (trace w) →
  P (db (snd (m w))) (trace (snd (m w))).
Proof.
  intros Hm Hw. specialize (Hm w Hw). by destruct (m w) as [[a|] w'].
Qed.

(** A property of the store and trace is kept by the Composer as soon as it
    is kept by the entry log line and by each of its two writes. *)
Lemma recalculateDailyScore_preserves (P : Db → list Event → Prop) L date :
  (∀ d t, P d t →
     P d (Log_recalculateDailyScore date :: t)
     ∧ P (Sql.upsert_DailyScores (composed L d date) d)
         (Upsert_DailyScores (composed L d date) :: Log_recalculateDailyScore date :: t)
     ∧ P (composed_db L d date)
         (Upsert_StreakData date (fst (composed_streak d date))
          :: Upsert_DailyScores (composed L d date)
          :: Log_recalculateDailyScore date :: t)) →
  triple P (recalculateDailyScore L date) (λ _, P) P.
Proof.
  intros H. apply triple_of_at. intros d0 t0 HP. destruct (H _ _ HP) as (H1 & H2 & H3).
  eapply triple_conseq; [apply recalculateDailyScore_at | done | | ].
  - by intros sd d t (? & -> & ->).
  - by intros d t [[-> ->] | [-> ->]].
Qed.

(** Likewise for one turn of the Reconciler's loop: the whole turn, and the
    turn cut short after the streak write. *)
Lemma forward_day_preserves (P : Db → list Event → Prop) L c :
  (∀ d t, P d t →
     P (forward_day_db L d c) (forward_day_events L d c ++ t)
     ∧ ∀ e, DailyScores d !! c = Some e →
         P (Sql.upsert_StreakData c (fst (forward_streak d e c)) d)
           (Upsert_StreakData c (fst (forward_streak d e c)) :: t)) →
  triple P (forward_day L c) (λ _, P) P.
Proof.
  intros H. apply triple_of_at. intros d0 t0 HP. destruct (H _ _ HP) as [H1 H2].
  eapply triple_conseq; [apply forward_day_at | done | | ].
  - by intros ? d t (-> & ->).
  - intros d t [[-> ->] | (e & He & -> & ->)]; [done | by apply H2].
Qed.

Lemma forward_loop_preserves (P : Db → list Event → Prop) L days c :
  (∀ c', triple P (forward_day L c') (λ _, P) P) →
  triple P (forward_loop L days c) (λ _, P) P.
Proof.
  intros Hday. revert c. induction days as [|days IH]; intros c; simpl.
  - by apply triple_ret.
  - eapply triple_bind; [apply Hday | intros ?; apply IH].
Qed.

Lemma recalculateStreaksForward_preserves (P : Db → list Event → Prop) L start :
  (∀ d t, P d t → P d (Log_recalculateStreaksForward start :: t)) →
  (∀ c, triple P (forward_day L c) (λ _, P) P) →
  triple P (recalculateStreaksForward L start) (λ _, P) P.
Proof.
  intros Hlog Hday. unfold recalculateStreaksForward.
  eapply triple_bind.
  { eapply triple_conseq; [apply triple_console | done | | done].
    intros ? d t (t' & HP & ->). by apply Hlog. }
  intros ?. eapply triple_bind.
  { apply triple_getDb. done. }
  intros [last|]; simpl.
  - destruct (last <? start).
    + apply triple_ret. by intros d t [HP _].
    + eapply triple_conseq; [apply (forward_loop_preserves P), Hday | | done | done].
      by intros d t [HP _].
  - apply triple_ret. by intros d t [HP _].
Qed.

(** The rows the two engine functions write keep the invariant of §3. *)
Lemma composed_row_invariant L d date notes0 :
  Spec.total_is_base_plus_bonus
    {| habit_score_component := sd_habit_score_component (composed L d date);
       task_score_component := sd_task_score_component (composed L d date);
       time_score_component := sd_time_score_component (composed L d date);
       streak_bonus_component := sd_streak_bonus_component (composed L d date);
       total_daily_score := sd_total_daily_score (composed L d date);
       is_manually_marked_rest_day := sd_is_manually_marked_rest_day (composed L d date);
       notes := notes0 |}.
Proof. reflexivity. Qed.

Lemma upsert_DailyScores_consistent L d date :
  all_totals_consistent d →
  all_totals_consistent (Sql.upsert_DailyScores (composed L d date) d).
Proof.
  intros Hd. unfold all_totals_consistent, Sql.upsert_DailyScores. simpl.
  apply map_Forall_insert_2; [apply composed_row_invariant | done].
Qed.

Lemma update_bonus_consistent d c e bonus :
  DailyScores d !! c = Some e →
  all_totals_consistent d →
  all_totals_consistent (Sql.update_bonus c bonus (base_of_entry e + bonus)%float d).
Proof.
  intros He Hd. unfold all_totals_consistent, Sql.update_bonus. rewrite He. simpl.
  apply map_Forall_insert_2; [reflexivity | done].
Qed.

Lemma forward_day_db_consistent L d c :
  all_totals_consistent d → all_totals_consistent (forward_day_db L d c).
Proof.
  intros Hd. unfold forward_day_db. destruct (DailyScores d !! c) as [e|] eqn:He; [|done].
  destruct (forward_streak d e c) as [ns basis].
  destruct (strict_neq _ _); [|done].
  by apply update_bonus_consistent.
Qed.

Lemma recalculateDailyScore_consistent L date :
  triple (λ d _, all_totals_consistent d) (recalculateDailyScore L date)
    (λ _ d _, all_totals_consistent d) (λ d _, all_totals_consistent d).
Proof.
  apply (recalculateDailyScore_preserves (λ d _, all_totals_consistent d)).
  intros d t Hd. split; [done|]. split.
  - by apply upsert_DailyScores_consistent.
  - by apply (upsert_DailyScores_consistent L d date).
Qed.

Lemma forward_day_consistent L c :
  triple (λ d _, all_totals_consistent d) (forward_day L c)
    (λ _ d _, all_totals_consistent d) (λ d _, all_totals_consistent d).
Proof.
  apply (forward_day_preserves (λ d _, all_totals_consistent d)).
  intros d t Hd. split; [by apply forward_day_db_consistent | done].
Qed.

(** C7. After a recomputation the stored total is the weighted sum of the
    stored components plus the stored bonus: the row a resolved Composer run
    leaves for its date satisfies the equation, and if every row satisfies
    it before a Composer or Reconciler run, every row satisfies it
    afterwards, whether the run resolves or is cut short by a storage
    failure. *)
Theorem total_score_invariant (L : float → float) (w : World) :
  (∀ date record w',
     recalculateDailyScore L date w = (Resolved record, w') →
     ∃ r, DailyScores (db w') !! date = Some r
          ∧ total_daily_score r = sd_total_daily_score record
          ∧ total_daily_score r
            = (habit_score_component r * 0.45 + task_score_component r * 0.45
               + time_score_component r * 0.10 + streak_bonus_component r)%float)
  ∧ (all_totals_consistent (db w) →
     (∀ date, all_totals_consistent (db (snd (recalculateDailyScore L date w))))
     ∧ (∀ start, all_totals_consistent (db (snd (recalculateStreaksForward L start w))))).
Proof.
  split.
  - intros date record w' Hrun.
    pose proof (recalculateDailyScore_at L (db w) (trace w) date w (conj eq_refl eq_refl)) as H.
    rewrite Hrun in H. destruct H as (-> & -> & _).
    rewrite composed_db_DailyScores, lookup_insert_eq. eexists. split; [done|].
    split; reflexivity.
  - intros Hw. split.
    + intros date.
      apply (triple_inv_run (λ d _, all_totals_consistent d) _ w
               (recalculateDailyScore_consistent L date) Hw).
    + intros start.
      apply (triple_inv_run (λ d _, all_totals_consistent d) _ w); [|done].
      apply (recalculateStreaksForward_preserves (λ d _, all_totals_consistent d));
        [done | apply forward_day_consistent].
Qed.

Lemma total_score_invariant_witness :
  all_totals_consistent undone_db
  ∧ all_totals_consistent (db (snd (recalculateDailyScore log2_linear 1 (fresh undone_db))))
  ∧ all_totals_consistent (db (snd (recalculateStreaksForward log2_linear 2 (fresh undone_db)))).
Proof.
  assert (all_totals_consistent (db (fresh undone_db))) as H0.
  { apply map_Forall_to_list. vm_compute. repeat constructor. }
  split; [exact H0|].
  destruct (proj2 (total_score_invariant log2_linear (fresh undone_db)) H0) as [Hc Hr].
  split; [apply Hc | apply Hr].
Defined.

(** *** What the engine leaves alone *)

Lemma upsert_DailyScores_keeps_notes L d date x r :
  (∃ r', DailyScores d !! x = Some r' ∧ keeps_notes r r') →
  ∃ r', DailyScores (Sql.upsert_DailyScores (composed L d date) d) !! x = Some r'
        ∧ keeps_notes r r'.
Proof.
  intros (r' & Hx & Hn). unfold Sql.upsert_DailyScores. simpl.
  destruct (decide (date = x)) as [->|Hne].
  - rewrite lookup_insert_eq, Hx. by eexists.
  - rewrite lookup_insert_ne by done. by exists r'.
Qed.

Lemma update_bonus_keeps_inputs d c bonus total x r :
  (∃ r', DailyScores d !! x = Some r' ∧ keeps_inputs r r') →
  ∃ r', DailyScores (Sql.update_bonus c bonus total d) !! x = Some r' ∧ keeps_inputs r r'.
Proof.
  intros (r' & Hx & Hk). unfold Sql.update_bonus.
  destruct (DailyScores d !! c) as [e|] eqn:He; [|by exists r']. simpl.
  destruct (decide (c = x)) as [->|Hne].
  - rewrite lookup_insert_eq. eexists. split; [done|].
    rewrite Hx in He. by injection He as <-.
  - rewrite lookup_insert_ne by done. by exists r'.
Qed.

Lemma forward_day_db_keeps_inputs L d c x r :
  (∃ r', DailyScores d !! x = Some r' ∧ keeps_inputs r r') →
  ∃ r', DailyScores (forward_day_db L d c) !! x = Some r' ∧ keeps_inputs r r'.
Proof.
  intros H. unfold forward_day_db. destruct (DailyScores d !! c) as [e|]; [|done].
  destruct (forward_streak d e c) as [ns basis].
  destruct (strict_neq _ _); [|done].
  by apply update_bonus_keeps_inputs.
Qed.

(** C10. Neither engine function modifies the notes of a row of
    [DailyScores], and the Reconciler changes nothing of a row but its
    bonus and total: a row present before a run is present afterwards with
    the same notes, and after a Reconciler run also with the same habit,
    task and time components and rest-day flag, whether the run resolves or
    is cut short by a storage failure. *)
Theorem engine_keeps_notes_and_inputs (L : float → float) (w : World) (x : Z)
    (r : DailyScoreRow) :
  DailyScores (db w) !! x = Some r →
  (∀ date, ∃ r', DailyScores (db (snd (recalculateDailyScore L date w))) !! x = Some r'
                 ∧ notes r' = notes r)
  ∧ (∀ start, ∃ r', DailyScores (db (snd (recalculateStreaksForward L start w))) !! x = Some r'
                    ∧ notes r' = notes r
                    ∧ habit_score_component r' = habit_score_component r
                    ∧ task_score_component r' = task_score_component r
                    ∧ time_score_component r' = time_score_component r
                    ∧ is_manually_marked_rest_day r' = is_manually_marked_rest_day r).
Proof.
  intros Hx. split.
  - intros date.
    apply (triple_inv_run
             (λ d _, ∃ r', DailyScores d !! x = Some r' ∧ keeps_notes r r') _ w).
    + apply (recalculateDailyScore_preserves
               (λ d _, ∃ r', DailyScores d !! x = Some r' ∧ keeps_notes r r')).
      intros d t Hd. split; [done|]. split.
      * by apply upsert_DailyScores_keeps_notes.
      * by apply (upsert_DailyScores_keeps_notes L d date).
    + by exists r.
  - intros start.
    assert (∃ r', DailyScores (db (snd (recalculateStreaksForward L start w))) !! x = Some r'
                  ∧ keeps_inputs r r') as (r' & Hr' & Hh & Ht & Htm & Hrest & Hn).
    { apply (triple_inv_run
               (λ d _, ∃ r', DailyScores d !! x = Some r' ∧ keeps_inputs r r') _ w).
      - apply (recalculateStreaksForward_preserves
                 (λ d _, ∃ r', DailyScores d !! x = Some r' ∧ keeps_inputs r r')); [done|].
        intros c.
        apply (forward_day_preserves
                 (λ d _, ∃ r', DailyScores d !! x = Some r' ∧ keeps_inputs r r')).
        intros d t Hd. split; [by apply forward_day_db_keeps_inputs | done].
      - by exists r. }
    by exists r'.
Qed.

Lemma engine_keeps_notes_and_inputs_witness :
  let d := RouteSql.upsert_rest_day 1 0 scenario_db in
  ∃ r, DailyScores d !! 1 = Some r
       ∧ (∃ r', DailyScores (db (snd (recalculateDailyScore log2_linear 1 (fresh d)))) !! 1
                = Some r' ∧ notes r' = notes r)
       ∧ (∃ r', DailyScores (db (snd (recalculateStreaksForward log2_linear 1 (fresh d)))) !! 1
                = Some r' ∧ notes r' = notes r
                ∧ is_manually_marked_rest_day r' = is_manually_marked_rest_day r).
Proof.
  intros d. eexists. split; [vm_compute; reflexivity|].
  pose proof (engine_keeps_notes_and_inputs log2_linear (fresh d) 1 _
                ltac:(vm_compute; reflexivity)) as [Hc Hr].
  split; [apply Hc|].
  destruct (Hr 1) as (r' & Hr' & Hn & _ & _ & _ & Hrest).
  exists r'. exact (conj Hr' (conj Hn Hrest)).
Defined.

(** *** A day without a row in [DailyScores] *)






(** *** A storage failure between the Composer's two writes *)

Lemma recalculateDailyScore_torn L d t date :
  recalculateDailyScore L date
    {| db := d; faults := fails_at_StreakData_upsert; trace := t |}
  = (Rejected,
     {| db := Sql.upsert_DailyScores (composed L d date) d; faults := [];
        trace := Upsert_DailyScores (composed L d date)
                 :: Log_recalculateDailyScore date :: t |}).
Proof.
  unfold recalculateDailyScore, composed,
    calculateTaskScore, calculateHabitScore, calculateTimeScore.
  io_unfold. simpl.
  change (composer_streak_logic _ _ _) with (composed_streak d date).
  by destruct (composed_streak d date) as [ns basis].
Qed.

(** C4, evaluated where it fails. Day 1's task has been marked not done;
    the Composer runs for day 1 and the storage layer fails its second
    write. The run is rejected, yet the row of [DailyScores] for day 1 has
    been rewritten (total 51, bonus 0) while the row of [StreakData] for day
    1 still holds the streak of 1 it held before. *)
Theorem recalculateDailyScore_not_atomic :
  ∃ w', recalculateDailyScore log2_linear 1
          {| db := undone_db; faults := fails_at_StreakData_upsert; trace := [] |}
        = (Rejected, w')
        ∧ total_daily_score <$> DailyScores undone_db !! 1 = Some 97%float
        ∧ total_daily_score <$> DailyScores (db w') !! 1 = Some 51%float
        ∧ streak_bonus_component <$> DailyScores (db w') !! 1 = Some 0%float
        ∧ StreakData undone_db !! 1 = Some 1
        ∧ StreakData (db w') !! 1 = Some 1
        ∧ fst (composed_streak undone_db 1) = 0.
Proof.
  eexists. split; [apply recalculateDailyScore_torn|].
  cbn [db]. repeat apply conj; vm_compute; reflexivity.
Qed.

(** *** Which handlers enter the Reconciler *)

(** The rest-day handler never enters the Reconciler, whatever fails. *)
Lemma put_daily_status_never_reconciles L date is_rest_day w y :
  Log_recalculateStreaksForward y ∈ trace (snd (put_daily_status L date is_rest_day w)) →
  Log_recalculateStreaksForward y ∈ trace w.
Proof.
  set (P := λ (_ : Db) (t : list Event),
          Log_recalculateStreaksForward y ∈ t → Log_recalculateStreaksForward y ∈ trace w).
  apply (triple_inv_run P _ w); [|exact (λ H, H)].
  assert (∀ d d' e t, P d t → (∀ z, e ≠ Log_recalculateStreaksForward z) → P d' (e :: t))
    as Hcons.
  { intros d d' e t Ht He [Hy|Hy]%elem_of_cons; [by destruct (He y) | by apply Ht]. }
  unfold put_daily_status. eapply triple_try_catch.
  - eapply triple_bind.
    { eapply triple_conseq; [apply (triple_runDb P) | done | | done]; [done|].
      intros ? d t (d0 & t0 & Ht0 & -> & ->). by eapply Hcons. }
    intros ?. eapply triple_bind.
    { apply (recalculateDailyScore_preserves P). intros d t Ht.
      repeat split; repeat (eapply (Hcons d); [|done]); done. }
    intros ?. by apply triple_ret.
  - eapply triple_bind.
    { eapply triple_conseq; [apply (triple_console P) | done | | done].
      intros ? d t (t0 & Ht0 & ->). by eapply Hcons. }
    intros ?. by apply triple_ret.
Qed.

(** The world after [PUT /api/daily-status/1] with [is_rest_day = true] on
    the three-day scenario, all statements succeeding. *)
Local Abbreviation rest_toggled :=
  (snd (put_daily_status log2_linear 1 true (fresh scenario_db))).

(** C5, evaluated where it fails. On the three-day scenario (streaks 1, 2,
    3), day 1 is marked as a rest day through its handler, all statements
    succeeding. The handler answers 200 having run the Composer for day 1
    and nothing else: the Reconciler is not entered. Day 1's streak is now
    0, carried over from the empty day before it, while day 2 still stores
    the streak 2 and day 3 the streak 3, where the transition rule gives 1
    for day 2 from day 1's streak. *)
Theorem rest_day_toggle_leaves_streaks_stale :
  fst (put_daily_status log2_linear 1 true (fresh scenario_db)) = Resolved (Status 200)
  ∧ (Log_recalculateDailyScore 1 ∈ trace rest_toggled)
  ∧ (∀ y, Log_recalculateStreaksForward y ∉ trace rest_toggled)
  ∧ StreakData (db rest_toggled) !! 1 = Some 0
  ∧ StreakData (db rest_toggled) !! 2 = Some 2
  ∧ StreakData (db rest_toggled) !! 3 = Some 3
  ∧ (∃ e, DailyScores (db rest_toggled) !! 2 = Some e
          ∧ fst (Spec.transition_rule (prev_streak_of (db rest_toggled) 2)
                   (base_of_entry e) (is_manually_marked_rest_day e =? 1)) = 1).
Proof.
  split; [vm_compute; reflexivity|]. split.
  { apply list_elem_of_In. vm_compute. tauto. }
  split.
  { intros y Hy. apply put_daily_status_never_reconciles in Hy.
    by apply elem_of_nil in Hy. }
  repeat apply conj; try (vm_compute; reflexivity).
  eexists. apply conj; vm_compute; reflexivity.
Qed.

(** *** The last scored date *)

Lemma max_date_spec d :
  match Sql.max_date d with
  | None => DailyScores d = ∅
  | Some last => is_Some (DailyScores d !! last)
                 ∧ ∀ j, is_Some (DailyScores d !! j) → j ≤ last
  end.
Proof.
  unfold Sql.max_date.
  apply (map_fold_weak_ind
           (λ r (m : gmap Z DailyScoreRow),
              match r with
              | None => m = ∅
              | Some last => is_Some (m !! last) ∧ ∀ j, is_Some (m !! j) → j ≤ last
              end)); [done|].
  intros i x m r Hi Hr. split.
  - destruct r as [k|].
    + destruct (Z.max_spec k i) as [[? ->]|[? ->]].
      * by rewrite lookup_insert_eq.
      * rewrite lookup_insert_ne; [apply Hr|].
        intros ->. destruct Hr as [[? Hk] _]. congruence.
    + by rewrite lookup_insert_eq.
  - intros j Hj. destruct (decide (i = j)) as [->|Hne].
    + destruct r; lia.
    + rewrite lookup_insert_ne in Hj by done. destruct r as [k|].
      * destruct Hr as [_ Hr]. specialize (Hr j Hj). lia.
      * subst m. rewrite lookup_empty in Hj. by destruct Hj.
Qed.

Lemma max_date_same_dates d d' :
  (∀ j, is_Some (DailyScores d' !! j) ↔ is_Some (DailyScores d !! j)) →
  Sql.max_date d' = Sql.max_date d.
Proof.
  intros Hdom. pose proof (max_date_spec d) as H. pose proof (max_date_spec d') as H'.
  destruct (Sql.max_date d) as [k|], (Sql.max_date d') as [k'|]; [| | |done].
  - destruct H as [Hk Hle], H' as [Hk' Hle']. f_equal.
    apply Hdom in Hk'. apply Hdom in Hk. specialize (Hle _ Hk'). specialize (Hle' _ Hk). lia.
  - destruct H as [Hk _]. apply Hdom in Hk. rewrite H' in Hk.
    rewrite lookup_empty in Hk. by destruct Hk.
  - destruct H' as [Hk' _]. apply Hdom in Hk'. rewrite H in Hk'.
    rewrite lookup_empty in Hk'. by destruct Hk'.
Qed.

(** *** What a turn of the loop touches *)

Lemma update_bonus_lookup d c bonus total x :
  DailyScores (Sql.update_bonus c bonus total d) !! x
  = if decide (c = x) then
      (λ r, {| habit_score_component := habit_score_component r;
               task_score_component := task_score_component r;
               time_score_component := time_score_component r;
               streak_bonus_component := bonus;
               total_daily_score := total;
               is_manually_marked_rest_day := is_manually_marked_rest_day r;
               notes := notes r |}) <$> DailyScores d !! x
    else DailyScores d !! x.
Proof.
  unfold Sql.update_bonus. destruct (decide (c = x)) as [->|Hne].
  - destruct (DailyScores d !! x) as [r|] eqn:Hr; simpl; [|by rewrite Hr].
    by rewrite lookup_insert_eq.
  - destruct (DailyScores d !! c) as [r|]; simpl; [|done]. by rewrite lookup_insert_ne.
Qed.

Lemma forward_day_db_other_row L d c x :
  c ≠ x → DailyScores (forward_day_db L d c) !! x = DailyScores d !! x.
Proof.
  intros Hne. unfold forward_day_db. destruct (DailyScores d !! c) as [e|]; [|done].
  destruct (forward_streak d e c) as [ns basis].
  destruct (strict_neq _ _); [|done].
  rewrite update_bonus_lookup. by rewrite decide_False.
Qed.

Lemma forward_day_db_other_streak L d c x :
  c ≠ x → StreakData (forward_day_db L d c) !! x = StreakData d !! x.
Proof.
  intros Hne. destruct (DailyScores d !! c) as [e|] eqn:He.
  - rewrite (forward_day_db_StreakData L d c e He). by rewrite lookup_insert_ne.
  - unfold forward_day_db. by rewrite He.
Qed.

Lemma forward_day_db_same_dates L d c j :
  is_Some (DailyScores (forward_day_db L d c) !! j) ↔ is_Some (DailyScores d !! j).
Proof.
  unfold forward_day_db. destruct (DailyScores d !! c) as [e|]; [|done].
  destruct (forward_streak d e c) as [ns basis].
  destruct (strict_neq _ _); [|done].
  rewrite update_bonus_lookup. simpl. case_decide; [|done]. by rewrite fmap_is_Some.
Qed.

Lemma forward_loop_db_same_dates L days d c j :
  is_Some (DailyScores (forward_loop_db L days d c) !! j) ↔ is_Some (DailyScores d !! j).
Proof.
  revert d c. induction days as [|days IH]; intros d c; simpl; [done|].
  by rewrite IH, forward_day_db_same_dates.
Qed.

Lemma reconciled_db_same_dates L d start j :
  is_Some (DailyScores (reconciled_db L d start) !! j) ↔ is_Some (DailyScores d !! j).
Proof.
  unfold reconciled_db. destruct (Sql.max_date d) as [last|]; [|done].
  destruct (last <? start); [done|]. apply forward_loop_db_same_dates.
Qed.

Lemma forward_loop_db_earlier_row L days d c x :
  x < c → DailyScores (forward_loop_db L days d c) !! x = DailyScores d !! x.
Proof.
  revert d c. induction days as [|days IH]; intros d c Hx; simpl; [done|].
  rewrite IH by lia. apply forward_day_db_other_row. lia.
Qed.

Lemma forward_loop_db_earlier_streak L days d c x :
  x < c → StreakData (forward_loop_db L days d c) !! x = StreakData d !! x.
Proof.
  revert d c. induction days as [|days IH]; intros d c Hx; simpl; [done|].
  rewrite IH by lia. apply forward_day_db_other_streak. lia.
Qed.

(** [settled] looks at the day's row and at the streaks of the day and of
    the day before. *)
Lemma settled_ext L d d' x :
  DailyScores d' !! x = DailyScores d !! x →
  StreakData d' !! x = StreakData d !! x →
  StreakData d' !! (x - 1) = StreakData d !! (x - 1) →
  settled L d x → settled L d' x.
Proof.
  unfold settled, forward_streak, prev_streak_of. by intros -> -> ->.
Qed.

(** The row of its day after a turn of the loop. *)
Lemma forward_day_db_row L d c e :
  DailyScores d !! c = Some e →
  DailyScores (forward_day_db L d c) !! c
  = Some (if strict_neq (forward_new_bonus L (snd (forward_streak d e c)))
               (streak_bonus_component e)
          then {| habit_score_component := habit_score_component e;
                  task_score_component := task_score_component e;
                  time_score_component := time_score_component e;
                  streak_bonus_component :=
                    forward_new_bonus L (snd (forward_streak d e c));
                  total_daily_score :=
                    (base_of_entry e + forward_new_bonus L (snd (forward_streak d e c)))%float;
                  is_manually_marked_rest_day := is_manually_marked_rest_day e;
                  notes := notes e |}
          else e).
Proof.
  intros He. unfold forward_day_db. rewrite He.
  destruct (forward_streak d e c) as [ns basis]. simpl.
  destruct (strict_neq _ _); [|done].
  rewrite update_bonus_lookup, decide_True by done.
  change (DailyScores (Sql.upsert_StreakData c ns d)) with (DailyScores d).
  by rewrite He.
Qed.

(** A turn of the loop settles its day. *)
Lemma forward_day_db_settles L d c : settled L (forward_day_db L d c) c.
Proof.
  unfold settled. destruct (DailyScores d !! c) as [e|] eqn:He.
  - rewrite (forward_day_db_row L d c e He).
    assert (prev_streak_of (forward_day_db L d c) c = prev_streak_of d c) as Hprev.
    { unfold prev_streak_of. by rewrite forward_day_db_other_streak by lia. }
    rewrite (forward_day_db_StreakData L d c e He), lookup_insert_eq.
    destruct (strict_neq _ _) eqn:Hneq.
    + unfold forward_streak. rewrite Hprev. split; [done | by left].
    + unfold forward_streak. rewrite Hprev. split; [done | by right].
  - unfold forward_day_db. by rewrite He, He.
Qed.

Lemma forward_loop_db_settles L days d c x :
  c ≤ x < c + Z.of_nat days → settled L (forward_loop_db L days d c) x.
Proof.
  revert d c. induction days as [|days IH]; intros d c Hx; [lia|].
  simpl. destruct (decide (x = c)) as [->|Hne].
  - apply (settled_ext L (forward_day_db L d c)).
    + apply forward_loop_db_earlier_row. lia.
    + apply forward_loop_db_earlier_streak. lia.
    + apply forward_loop_db_earlier_streak. lia.
    + apply forward_day_db_settles.
  - apply IH. lia.
Qed.

(** After a reconciliation that ran to its end, every day of its range is
    settled. *)
Lemma reconciled_db_settles L d start last x :
  Sql.max_date d = Some last → start ≤ x ≤ last →
  settled L (reconciled_db L d start) x.
Proof.
  intros Hlast Hx. unfold reconciled_db. rewrite Hlast.
  destruct (last <? start) eqn:Hlt; [apply Z.ltb_lt in Hlt; lia|].
  apply forward_loop_db_settles. lia.
Qed.

Lemma strict_neq_self x : is_nan x = false → strict_neq x x = false.
Proof. done. Qed.

(** A turn of the loop on a settled day whose bonus is a number rewrites
    the streak already stored and nothing else. *)
Lemma forward_day_db_fixed L d c :
  settled L d c →
  bonuses_are_numbers d →
  forward_day_db L d c = d
  ∧ forward_day_events L d c
    = match DailyScores d !! c with
      | None => [Warn_no_DailyScores_entry c]
      | Some e => [Upsert_StreakData c (fst (forward_streak d e c))]
      end.
Proof.
  unfold settled, forward_day_db, forward_day_events. intros Hs Hnum.
  destruct (DailyScores d !! c) as [e|] eqn:He; [|done].
  specialize (Hnum c e He). simpl in Hnum.
  destruct Hs as [Hstreak Hbonus].
  destruct (forward_streak d e c) as [ns basis]. simpl in *.
  assert (strict_neq (forward_new_bonus L basis) (streak_bonus_component e) = false) as ->.
  { destruct Hbonus as [Heq|Hneq]; [|done]. rewrite <- Heq. by apply strict_neq_self. }
  split; [|done]. apply Db_eq; try done. simpl. by apply insert_id.
Qed.

Lemma forward_loop_db_fixed L days d c :
  (∀ x, c ≤ x < c + Z.of_nat days → settled L d x) →
  bonuses_are_numbers d →
  forward_loop_db L days d c = d
  ∧ Forall (λ ev, match ev with
                  | Warn_no_DailyScores_entry _ => True
                  | Upsert_StreakData x v => StreakData d !! x = Some v
                  | _ => False
                  end) (forward_loop_events L days d c).
Proof.
  revert c. induction days as [|days IH]; intros c Hs Hnum; [done|].
  simpl. destruct (forward_day_db_fixed L d c) as [Hd Hev]; [apply Hs; lia | done |].
  rewrite Hd. destruct (IH (c + 1)) as [Hd' Hev']; [intros x Hx; apply Hs; lia | done |].
  split; [done|]. apply Forall_app. split; [done|]. rewrite Hev.
  specialize (Hs c ltac:(lia)). unfold settled in Hs.
  destruct (DailyScores d !! c) as [e|]; repeat constructor. apply Hs.
Qed.

Lemma reconciled_db_fixed L d start :
  bonuses_are_numbers (reconciled_db L d start) →
  reconciled_db L (reconciled_db L d start) start = reconciled_db L d start
  ∧ Forall (λ ev, match ev with
                  | Warn_no_DailyScores_entry _ | Log_recalculateStreaksForward _ => True
                  | Upsert_StreakData x v => StreakData (reconciled_db L d start) !! x = Some v
                  | _ => False
                  end) (reconciled_events L (reconciled_db L d start) start).
Proof.
  intros Hnum. set (d1 := reconciled_db L d start) in *.
  assert (Sql.max_date d1 = Sql.max_date d) as Hmax.
  { apply max_date_same_dates. intros j. apply reconciled_db_same_dates. }
  unfold reconciled_db at 1. unfold reconciled_events. rewrite Hmax.
  destruct (Sql.max_date d) as [last|] eqn:Hlast; [|by repeat constructor].
  destruct (last <? start) eqn:Hlt; [by repeat constructor|].
  apply Z.ltb_ge in Hlt.
  destruct (forward_loop_db_fixed L (Z.to_nat (last - start + 1)) d1 start) as [Hd Hev];
    [|done|].
  { intros x Hx. apply (reconciled_db_settles L d start last); [done | lia]. }
  split; [done|]. apply Forall_app. split; [|by repeat constructor].
  eapply Forall_impl; [exact Hev|]. by intros [].
Qed.

Lemma DailyScores_writes_none t :
  Forall (λ ev, is_DailyScores_write ev = false) t → DailyScores_writes t = [].
Proof.
  unfold DailyScores_writes. induction 1 as [|ev t Hev _ IH]; [done|].
  rewrite filter_cons_False by congruence. exact IH.
Qed.

(** The loop over settled days upserts the streak of every scored day of
    its range. *)
Lemma forward_loop_events_fixed L days d c x e :
  (∀ y, c ≤ y < c + Z.of_nat days → settled L d y) →
  bonuses_are_numbers d →
  c ≤ x < c + Z.of_nat days →
  DailyScores d !! x = Some e →
  ∃ v, StreakData d !! x = Some v
       ∧ Upsert_StreakData x v ∈ forward_loop_events L days d c.
Proof.
  revert c. induction days as [|days IH]; intros c Hs Hnum Hx He; [lia|].
  simpl. destruct (forward_day_db_fixed L d c) as [Hd Hev]; [apply Hs; lia | done |].
  rewrite Hd, Hev. destruct (decide (x = c)) as [->|Hne].
  - specialize (Hs c ltac:(lia)). unfold settled in Hs. rewrite He in Hs.
    rewrite He. eexists. split; [apply Hs|]. apply elem_of_app. right. by left.
  - destruct (IH (c + 1)) as (v & Hv & Hin);
      [intros y Hy; apply Hs; lia | done | lia | done |].
    exists v. split; [done|]. apply elem_of_app. by left.
Qed.

Lemma reconciled_events_upserts L d start x e :
  bonuses_are_numbers (reconciled_db L d start) →
  start ≤ x →
  DailyScores (reconciled_db L d start) !! x = Some e →
  ∃ v, StreakData (reconciled_db L d start) !! x = Some v
       ∧ Upsert_StreakData x v ∈ reconciled_events L (reconciled_db L d start) start.
Proof.
  intros Hnum Hx He. set (d1 := reconciled_db L d start) in *.
  assert (Sql.max_date d1 = Sql.max_date d) as Hmax.
  { apply max_date_same_dates. intros j. apply reconciled_db_same_dates. }
  pose proof (max_date_spec d1) as Hspec. rewrite Hmax in Hspec.
  unfold reconciled_events. rewrite Hmax.
  destruct (Sql.max_date d) as [last|] eqn:Hlast.
  - destruct Hspec as [_ Hle]. specialize (Hle x ltac:(by rewrite He)).
    destruct (last <? start) eqn:Hlt; [apply Z.ltb_lt in Hlt; lia|].
    destruct (forward_loop_events_fixed L (Z.to_nat (last - start + 1)) d1 start x e)
      as (v & Hv & Hin); [|done|lia|done|].
    { intros y Hy. apply (reconciled_db_settles L d start last); [done | lia]. }
    exists v. split; [done|]. apply elem_of_app. by left.
  - rewrite Hspec, lookup_empty in He. discriminate.
Qed.

(** C3, as the code has it. A second reconciliation from the same date,
    right after one that ran to its end and with all statements succeeding,
    leaves the store as it is and writes no row of [DailyScores]; it still
    upserts the [StreakData] row of every scored day from the start date
    on, with the streak the row already holds, and writes nothing else.
    (The stored bonuses are assumed to be numbers: [NaN !== NaN] would
    make every turn rewrite the day's bonus.) *)
Theorem second_reconciliation_rewrites_streaks_only (L : float → float) (w : World)
    (start : Z) :
  faults w = [] →
  bonuses_are_numbers (db (snd (recalculateStreaksForward L start w))) →
  ∃ w2,
    recalculateStreaksForward L start
      (fresh (db (snd (recalculateStreaksForward L start w)))) = (Resolved (), w2)
    ∧ db w2 = db (snd (recalculateStreaksForward L start w))
    ∧ DailyScores_writes (trace w2) = []
    ∧ (∀ x e, start ≤ x → DailyScores (db w2) !! x = Some e →
              ∃ v, StreakData (db w2) !! x = Some v
                   ∧ Upsert_StreakData x v ∈ trace w2)
    ∧ Forall (λ ev, is_write ev = true →
                    ∃ x v, ev = Upsert_StreakData x v ∧ StreakData (db w2) !! x = Some v)
        (trace w2).
Proof.
  intros Hw. rewrite (recalculateStreaksForward_ok L start w Hw). cbn [snd db].
  intros Hnum. destruct (reconciled_db_fixed L (db w) start Hnum) as [Hd Hev].
  eexists. split; [by apply recalculateStreaksForward_ok|]. cbn [db trace fresh].
  rewrite app_nil_r, Hd. split; [done|]. split; [|split].
  - apply DailyScores_writes_none.
    eapply Forall_impl; [exact Hev|]. by intros [].
  - intros x e Hx He. by apply (reconciled_events_upserts L (db w) start x e).
  - eapply Forall_impl; [exact Hev|].
    intros [] Hshape Hwrite; try done. by eexists _, _.
Qed.

Lemma second_reconciliation_rewrites_streaks_only_witness :
  ∃ w2,
    recalculateStreaksForward log2_linear 2
      (fresh (db (snd (recalculateStreaksForward log2_linear 2 (fresh undone_db)))))
    = (Resolved (), w2)
    ∧ db w2 = db (snd (recalculateStreaksForward log2_linear 2 (fresh undone_db)))
    ∧ DailyScores_writes (trace w2) = []
    ∧ Upsert_StreakData 2 2 ∈ trace w2
    ∧ Upsert_StreakData 3 3 ∈ trace w2.
Proof.
  destruct (second_reconciliation_rewrites_streaks_only log2_linear (fresh undone_db) 2
              eq_refl) as (w2 & H1 & H2 & H3 & H4 & _).
  - unfold bonuses_are_numbers.
    match goal with
    | |- map_Forall ?P ?m => apply (proj2 (map_Forall_to_list P m))
    end.
    vm_compute. repeat constructor.
  - exists w2.
    refine (conj H1 (conj H2 (conj H3 (conj _ _)))).
    + eassert (DailyScores (db w2) !! 2 = Some _) as He
        by (rewrite H2; vm_compute; reflexivity).
      destruct (H4 2 _ ltac:(lia) He) as (v & Hv & Hin).
      rewrite H2 in Hv. vm_compute in Hv. injection Hv as <-. exact Hin.
    + eassert (DailyScores (db w2) !! 3 = Some _) as He
        by (rewrite H2; vm_compute; reflexivity).
      destruct (H4 3 _ ltac:(lia) He) as (v & Hv & Hin).
      rewrite H2 in Hv. vm_compute in Hv. injection Hv as <-. exact Hin.
Defined.

(** C3, as stated, fails: on the three-day scenario a reconciliation from
    day 2 that follows one from day 2 still writes, once for each scored
    day of its range. *)
Lemma second_reconciliation_still_writes :
  writes (trace (snd (recalculateStreaksForward log2_linear 2
                        (fresh (db (snd (recalculateStreaksForward log2_linear 2
                                           (fresh scenario_db)))))))) 
  = [Upsert_StreakData 3 3; Upsert_StreakData 2 2].
Proof. vm_compute. reflexivity. Qed.

(** *** The streak bonus *)

(** With a logarithm that is not negative, the bonus the code computes
    for a positive basis is the logarithm rounded to 2 decimal places,
    half away from zero. *)
Lemma rounded_log_bonus L basis :
  log2_not_negative_at L basis →
  (Math_round (L (2 + Z_to_float basis / 365) * 100) / 100)%float = Spec.log_bonus L basis.
Proof.
  intros Hlog. unfold Spec.log_bonus, Spec.round2.
  by rewrite Math_round_half_away by by apply scaled_not_negative.
Qed.

Lemma composer_streak_bonus_formula L basis :
  (0 < basis → log2_not_negative_at L basis →
   composer_streak_bonus L basis = Spec.log_bonus L basis)
  ∧ (basis = 0 → composer_streak_bonus L basis = 0%float).
Proof.
  unfold composer_streak_bonus. split.
  - intros H Hlog. rewrite (proj2 (Z.ltb_lt _ _) H). by apply rounded_log_bonus.
  - by intros ->.
Qed.

Lemma forward_new_bonus_formula L basis :
  (0 < basis → log2_not_negative_at L basis →
   forward_new_bonus L basis = Spec.log_bonus L basis)
  ∧ (basis = 0 → forward_new_bonus L basis = 0%float).
Proof.
  unfold forward_new_bonus. split.
  - intros H Hlog. rewrite (proj2 (Z.ltb_lt _ _) H). by apply rounded_log_bonus.
  - by intros ->.
Qed.

(** A bonus the Reconciler finds settled is the same number as the one it
    computes. *)
Lemma settled_same_number (stored computed : float) :
  stored = computed ∨ strict_neq computed stored = false →
  same_number stored computed.
Proof.
  intros [->|Hneq]; [by left|]. unfold strict_neq in Hneq.
  apply negb_false_iff in Hneq.
  destruct (strict_eq_cases computed stored Hneq) as [->|[Hc Hs]]; [by left | by right].
Qed.

(** C6. The stored streak bonus is [log2(2 + basis/365)] rounded to 2
    decimal places, half away from zero on the scaled value, when the bonus
    basis given by the transition rule is positive, and 0 when it is 0, on
    both paths: the row a Composer run writes for its date holds exactly
    that value, and after a reconciliation that ran to its end every scored
    day of its range holds it up to the sign of zero, the basis being the
    one the rule gives from the streak then stored for the day before (the
    Reconciler rewrites a bonus only when [!==] tells it apart from the
    stored one). The code rounds with [Math.round], which takes ties
    towards +∞: the two roundings agree because the logarithm, of a number
    that is at least 2, is not negative, which is what is asked of
    [Math.log2] here. *)
Theorem streak_bonus_formula (L : float → float) (w : World) (date start : Z) :
  faults w = [] →
  (∃ r, DailyScores (db (snd (recalculateDailyScore L date w))) !! date = Some r
        ∧ let basis := snd (Spec.transition_rule (prev_streak_of (db w) date)
                              (composed_base (db w) date) (rest_flag_of (db w) date)) in
          (0 < basis → log2_not_negative_at L basis →
           streak_bonus_component r = Spec.log_bonus L basis)
          ∧ (basis = 0 → streak_bonus_component r = 0%float))
  ∧ (∀ last x e,
       Sql.max_date (db w) = Some last → start ≤ x ≤ last →
       DailyScores (db (snd (recalculateStreaksForward L start w))) !! x = Some e →
       let basis :=
         snd (Spec.transition_rule
                (prev_streak_of (db (snd (recalculateStreaksForward L start w))) x)
                (base_of_entry e) (is_manually_marked_rest_day e =? 1)) in
       (0 < basis → log2_not_negative_at L basis →
        same_number (streak_bonus_component e) (Spec.log_bonus L basis))
       ∧ (basis = 0 → same_number (streak_bonus_component e) 0%float)).
Proof.
  intros Hw. split.
  - rewrite recalculateDailyScore_ok by done. cbn [snd db].
    rewrite composed_db_DailyScores, lookup_insert_eq. eexists. split; [done|].
    cbn [streak_bonus_component composed sd_streak_bonus_component].
    unfold composed_streak. rewrite composer_streak_logic_rule.
    apply composer_streak_bonus_formula.
  - intros last x e Hlast Hx. rewrite recalculateStreaksForward_ok by done. cbn [snd db].
    intros He. pose proof (reconciled_db_settles L (db w) start last x Hlast Hx) as Hs.
    unfold settled in Hs. rewrite He in Hs. destruct Hs as [_ Hb].
    unfold forward_streak in Hb. rewrite forward_streak_logic_rule in Hb.
    apply settled_same_number in Hb.
    cbv zeta. destruct (forward_new_bonus_formula L
      (snd (Spec.transition_rule (prev_streak_of (reconciled_db L (db w) start) x)
              (base_of_entry e) (is_manually_marked_rest_day e =? 1)))) as [Hpos Hzero].
    split; [intros Hbasis Hlog; rewrite <- (Hpos Hbasis Hlog)
           | intros Hbasis; rewrite <- (Hzero Hbasis)]; exact Hb.
Qed.

Lemma streak_bonus_formula_witness :
  (∃ r, DailyScores (db (snd (recalculateDailyScore log2_linear 3 (fresh undone_db)))) !! 3
        = Some r
        ∧ streak_bonus_component r = Spec.log_bonus log2_linear 3
        ∧ streak_bonus_component r = 1%float)
  ∧ (∃ e, DailyScores (db (snd (recalculateStreaksForward log2_linear 2 (fresh undone_db)))) !! 3
          = Some e
          ∧ same_number (streak_bonus_component e) (Spec.log_bonus log2_linear 3)).
Proof.
  destruct (streak_bonus_formula log2_linear (fresh undone_db) 3 2 eq_refl)
    as [(r & Hr & Hpos & _) Hforward].
  split.
  - exists r. split; [exact Hr|].
    match type of Hpos with
    | 0 < ?b → _ =>
        assert (b = 3) as Hbasis by (vm_compute; reflexivity); rewrite Hbasis in Hpos
    end.
    assert (streak_bonus_component r = Spec.log_bonus log2_linear 3) as Hb.
    { apply Hpos; vm_compute; reflexivity. }
    split; [exact Hb|]. rewrite Hb. vm_compute. reflexivity.
  - eexists. split; [vm_compute; reflexivity|].
    refine (proj1 (Hforward 3 3 _ _ _ _) _ _);
      [vm_compute; reflexivity | lia | vm_compute; reflexivity
      | vm_compute; reflexivity | vm_compute; reflexivity].
Defined.

(** ** Further properties *)

(** *** The Reconciler *)

(** After a reconciliation that ran to its end, the streak stored for every
    scored day of the range follows the transition rule from the streak
    then stored for the day before (0 if there is none), the day's stored
    components and its rest-day flag. *)
Theorem reconciled_streaks_follow_rule (L : float → float) (w : World)
    (start last x : Z) (e : DailyScoreRow) :
  faults w = [] →
  Sql.max_date (db w) = Some last →
  start ≤ x ≤ last →
  DailyScores (db (snd (recalculateStreaksForward L start w))) !! x = Some e →
  fst (recalculateStreaksForward L start w) = Resolved ()
  ∧ StreakData (db (snd (recalculateStreaksForward L start w))) !! x
    = Some (fst (Spec.transition_rule
                   (default 0 (StreakData (db (snd (recalculateStreaksForward L start w)))
                               !! (x - 1)))
                   (Spec.base (habit_score_component e) (task_score_component e)
                      (time_score_component e))
                   (is_manually_marked_rest_day e =? 1))).
Proof.
  intros Hw Hlast Hx. rewrite (recalculateStreaksForward_ok L start w Hw). cbn [fst snd db].
  intros He. split; [done|].
  pose proof (reconciled_db_settles L (db w) start last x Hlast Hx) as Hs.
  unfold settled in Hs. rewrite He in Hs. destruct Hs as [Hs _].
  rewrite Hs. unfold forward_streak. by rewrite forward_streak_logic_rule.
Qed.

Lemma reconciled_streaks_follow_rule_witness :
  ∃ e, DailyScores (db (snd (recalculateStreaksForward log2_linear 2 (fresh undone_db)))) !! 3
       = Some e
       ∧ StreakData (db (snd (recalculateStreaksForward log2_linear 2 (fresh undone_db)))) !! 3
         = Some (fst (Spec.transition_rule
                        (default 0 (StreakData
                                      (db (snd (recalculateStreaksForward log2_linear 2
                                                  (fresh undone_db)))) !! (3 - 1)))
                        (Spec.base (habit_score_component e) (task_score_component e)
                           (time_score_component e))
                        (is_manually_marked_rest_day e =? 1))).
Proof.
  eexists. split; [vm_compute; reflexivity|].
  refine (proj2 (reconciled_streaks_follow_rule log2_linear (fresh undone_db) 2 3 3 _
                   eq_refl _ _ _)).
  - vm_compute. reflexivity.
  - lia.
  - vm_compute. reflexivity.
Defined.

Lemma forward_loop_preserves_from (P : Db → list Event → Prop) L days c :
  (∀ c', c ≤ c' → triple P (forward_day L c') (λ _, P) P) →
  triple P (forward_loop L days c) (λ _, P) P.
Proof.
  revert c. induction days as [|days IH]; intros c Hday; simpl.
  - by apply triple_ret.
  - eapply triple_bind; [apply Hday; lia | intros ?; apply IH].
    intros c' Hc'. apply Hday. lia.
Qed.

Lemma recalculateStreaksForward_preserves_from (P : Db → list Event → Prop) L start :
  (∀ d t, P d t → P d (Log_recalculateStreaksForward start :: t)) →
  (∀ c, start ≤ c → triple P (forward_day L c) (λ _, P) P) →
  triple P (recalculateStreaksForward L start) (λ _, P) P.
Proof.
  intros Hlog Hday. unfold recalculateStreaksForward.
  eapply triple_bind.
  { eapply triple_conseq; [apply triple_console | done | | done].
    intros ? d t (t' & HP & ->). by apply Hlog. }
  intros ?. eapply triple_bind.
  { apply triple_getDb. done. }
  intros [last|]; simpl.
  - destruct (last <? start).
    + apply triple_ret. by intros d t [HP _].
    + eapply triple_conseq; [apply (forward_loop_preserves_from P), Hday | | done | done].
      by intros d t [HP _].
  - apply triple_ret. by intros d t [HP _].
Qed.

(** A reconciliation from [start] leaves every earlier day as it is, in
    both tables, whether it runs to its end or is cut short by a storage
    failure. *)
Theorem reconciliation_leaves_earlier_days (L : float → float) (w : World) (start x : Z) :
  x < start →
  DailyScores (db (snd (recalculateStreaksForward L start w))) !! x = DailyScores (db w) !! x
  ∧ StreakData (db (snd (recalculateStreaksForward L start w))) !! x = StreakData (db w) !! x.
Proof.
  intros Hx.
  set (P := λ (d : Db) (_ : list Event),
          DailyScores d !! x = DailyScores (db w) !! x
          ∧ StreakData d !! x = StreakData (db w) !! x).
  apply (triple_inv_run P _ w); [|done].
  apply (recalculateStreaksForward_preserves_from P); [done|].
  intros c Hc. apply (forward_day_preserves P). intros d t [H1 H2]. split.
  - split; [by rewrite forward_day_db_other_row by lia
           | by rewrite forward_day_db_other_streak by lia].
  - intros e He. split; [done|]. simpl. by rewrite lookup_insert_ne by lia.
Qed.

Lemma reconciliation_leaves_earlier_days_witness :
  StreakData (db (snd (recalculateStreaksForward log2_linear 2 (fresh undone_db)))) !! 1
  = StreakData (db (fresh undone_db)) !! 1.
Proof.
  apply (reconciliation_leaves_earlier_days log2_linear (fresh undone_db) 2 1). lia.
Defined.

(** A reconciliation neither adds nor removes a scored date, so the last
    scored date stays what it was, and it leaves the three source tables
    alone, whether it runs to its end or is cut short. *)
Theorem reconciliation_keeps_dates_and_sources (L : float → float) (w : World) (start : Z) :
  (∀ j, is_Some (DailyScores (db (snd (recalculateStreaksForward L start w))) !! j)
        ↔ is_Some (DailyScores (db w) !! j))
  ∧ Sql.max_date (db (snd (recalculateStreaksForward L start w))) = Sql.max_date (db w)
  ∧ Tasks (db (snd (recalculateStreaksForward L start w))) = Tasks (db w)
  ∧ HabitCompletions (db (snd (recalculateStreaksForward L start w)))
    = HabitCompletions (db w)
  ∧ TimeLogs (db (snd (recalculateStreaksForward L start w))) = TimeLogs (db w).
Proof.
  set (P := λ (d : Db) (_ : list Event),
          (∀ j, is_Some (DailyScores d !! j) ↔ is_Some (DailyScores (db w) !! j))
          ∧ Tasks d = Tasks (db w) ∧ HabitCompletions d = HabitCompletions (db w)
          ∧ TimeLogs d = TimeLogs (db w)).
  assert (P (db (snd (recalculateStreaksForward L start w)))
            (trace (snd (recalculateStreaksForward L start w)))) as (Hdates & HT & HH & HL).
  { apply (triple_inv_run P _ w); [|done].
    apply (recalculateStreaksForward_preserves P); [done|].
    intros c. apply (forward_day_preserves P). intros d t (H1 & H2 & H3 & H4). split.
    - split; [intros j; by rewrite forward_day_db_same_dates|].
      unfold forward_day_db. destruct (DailyScores d !! c) as [e|] eqn:He; [|done].
      destruct (forward_streak d e c) as [ns basis].
      destruct (strict_neq _ _); [|done].
      unfold Sql.update_bonus. simpl. by rewrite He.
    - done. }
  split; [done|]. split; [by apply max_date_same_dates | done].
Qed.

(** Without a scored date at or after [start] a reconciliation has nothing
    to do: it leaves the store as it is and writes nothing, whatever the
    storage layer does. *)
Theorem reconciliation_nothing_to_do (L : float → float) (w : World) (start : Z) :
  (∀ j, is_Some (DailyScores (db w) !! j) → j < start) →
  db (snd (recalculateStreaksForward L start w)) = db w
  ∧ writes (trace (snd (recalculateStreaksForward L start w))) = writes (trace w).
Proof.
  intros Hnone. pose proof (max_date_spec (db w)) as Hmax.
  destruct w as [d fs t]. simpl in *.
  unfold recalculateStreaksForward. io_unfold. simpl.
  destruct fs as [|[] fs]; simpl; try done.
  - destruct (Sql.max_date d) as [last|]; [|done].
    destruct Hmax as [Hlast _]. apply Hnone in Hlast.
    by rewrite (proj2 (Z.ltb_lt _ _) Hlast).
  - destruct (Sql.max_date d) as [last|]; [|done].
    destruct Hmax as [Hlast _]. apply Hnone in Hlast.
    by rewrite (proj2 (Z.ltb_lt _ _) Hlast).
Qed.

Lemma reconciliation_nothing_to_do_witness :
  db (snd (recalculateStreaksForward log2_linear 1 (fresh (scenario_sources true))))
  = db (fresh (scenario_sources true)).
Proof.
  apply (reconciliation_nothing_to_do log2_linear (fresh (scenario_sources true)) 1).
  intros j [r Hr]. simpl in Hr. rewrite lookup_empty in Hr. discriminate.
Defined.

(** *** The Composer *)

(** A Composer run for [date] touches the rows of [date] only, and none of
    the three source tables, whether it resolves or is rejected. *)
Theorem recalculateDailyScore_touches_its_date_only (L : float → float) (w : World)
    (date x : Z) :
  x ≠ date →
  DailyScores (db (snd (recalculateDailyScore L date w))) !! x = DailyScores (db w) !! x
  ∧ StreakData (db (snd (recalculateDailyScore L date w))) !! x = StreakData (db w) !! x
  ∧ Tasks (db (snd (recalculateDailyScore L date w))) = Tasks (db w)
  ∧ HabitCompletions (db (snd (recalculateDailyScore L date w))) = HabitCompletions (db w)
  ∧ TimeLogs (db (snd (recalculateDailyScore L date w))) = TimeLogs (db w).
Proof.
  intros Hx.
  set (P := λ (d : Db) (_ : list Event),
          DailyScores d !! x = DailyScores (db w) !! x
          ∧ StreakData d !! x = StreakData (db w) !! x
          ∧ Tasks d = Tasks (db w) ∧ HabitCompletions d = HabitCompletions (db w)
          ∧ TimeLogs d = TimeLogs (db w)).
  apply (triple_inv_run P _ w); [|done].
  apply (recalculateDailyScore_preserves P). intros d t (H1 & H2 & H3 & H4 & H5).
  split; [done|]. split.
  - repeat split; try done. unfold Sql.upsert_DailyScores. simpl.
    by rewrite lookup_insert_ne.
  - repeat split; try done.
    + rewrite composed_db_DailyScores. by rewrite lookup_insert_ne.
    + rewrite composed_db_StreakData. by rewrite lookup_insert_ne.
Qed.

Lemma recalculateDailyScore_touches_its_date_only_witness :
  DailyScores (db (snd (recalculateDailyScore log2_linear 1 (fresh undone_db)))) !! 2
  = DailyScores (db (fresh undone_db)) !! 2.
Proof.
  apply (recalculateDailyScore_touches_its_date_only log2_linear (fresh undone_db) 1 2). lia.
Defined.

(** A rejected Composer run has not written the streak: [StreakData] is
    what it was, and the store is either untouched or differs by the
    [DailyScores] upsert of the date alone. *)
Theorem recalculateDailyScore_rejected (L : float → float) (w : World) (date : Z) :
  fst (recalculateDailyScore L date w) = Rejected →
  StreakData (db (snd (recalculateDailyScore L date w))) = StreakData (db w)
  ∧ (db (snd (recalculateDailyScore L date w)) = db w
     ∨ db (snd (recalculateDailyScore L date w))
       = Sql.upsert_DailyScores (composed L (db w) date) (db w)).
Proof.
  intros Hrej.
  pose proof (recalculateDailyScore_at L (db w) (trace w) date w (conj eq_refl eq_refl)) as H.
  destruct (recalculateDailyScore L date w) as [[sd|] w']; [discriminate|].
  simpl. destruct H as [[-> _] | [-> _]]; [by split; [|left] | by split; [|right]].
Qed.

Lemma recalculateDailyScore_rejected_witness :
  StreakData (db (snd (recalculateDailyScore log2_linear 1
                         {| db := undone_db; faults := fails_at_StreakData_upsert;
                            trace := [] |})))
  = StreakData undone_db.
Proof.
  apply (recalculateDailyScore_rejected log2_linear
           {| db := undone_db; faults := fails_at_StreakData_upsert; trace := [] |} 1).
  by rewrite recalculateDailyScore_torn.
Defined.

(** The Composer normalises the rest-day flag: the row it leaves holds 1
    if the flag stored before was 1, and 0 in every other case (no row, 0,
    or any other value). *)
Theorem recalculateDailyScore_normalises_rest_flag (L : float → float) (w : World)
    (date : Z) (record : ScoreData) (w' : World) :
  recalculateDailyScore L date w = (Resolved record, w') →
  is_manually_marked_rest_day <$> DailyScores (db w') !! date
  = Some (match DailyScores (db w) !! date with
          | Some r => if is_manually_marked_rest_day r =? 1 then 1 else 0
          | None => 0
          end)
  ∧ sd_is_manually_marked_rest_day record
    = match DailyScores (db w) !! date with
      | Some r => if is_manually_marked_rest_day r =? 1 then 1 else 0
      | None => 0
      end.
Proof.
  intros Hrun.
  pose proof (recalculateDailyScore_at L (db w) (trace w) date w (conj eq_refl eq_refl)) as H.
  rewrite Hrun in H. destruct H as (-> & -> & _).
  rewrite composed_db_DailyScores, lookup_insert_eq. simpl. unfold rest_flag_of.
  by destruct (DailyScores (db w) !! date).
Qed.

Lemma recalculateDailyScore_normalises_rest_flag_witness :
  ∃ record w',
    recalculateDailyScore log2_linear 1
      (fresh (RouteSql.upsert_rest_day 1 2 (scenario_sources true))) = (Resolved record, w')
    ∧ sd_is_manually_marked_rest_day record = 0.
Proof.
  pose proof (recalculateDailyScore_ok log2_linear 1
                (fresh (RouteSql.upsert_rest_day 1 2 (scenario_sources true))) eq_refl) as Hrun.
  eexists _, _. split; [exact Hrun|].
  rewrite (proj2 (recalculateDailyScore_normalises_rest_flag _ _ _ _ _ Hrun)).
  vm_compute. reflexivity.
Defined.

(** A date without any task, habit completion or time log is composed to
    an all-zero record, and its streak is reset to 0 unless the date is
    marked as a rest day, in which case the previous day's streak is
    carried over. *)
Theorem recalculateDailyScore_no_data (L : float → float) (w : World) (date : Z) :
  faults w = [] →
  Sql.count_assigned date (db w) = 0 →
  Sql.count_completed date (db w) = 0 →
  Sql.sum_weights date (db w) = None →
  Sql.sum_minutes productive date (db w) = None →
  Sql.sum_minutes distracting date (db w) = None →
  ∃ record w',
    recalculateDailyScore L date w = (Resolved record, w')
    ∧ sd_habit_score_component record = 0%float
    ∧ sd_task_score_component record = 0%float
    ∧ sd_time_score_component record = 0%float
    ∧ (rest_flag_of (db w) date = false →
       sd_streak_bonus_component record = 0%float
       ∧ sd_total_daily_score record = 0%float
       ∧ StreakData (db w') !! date = Some 0)
    ∧ (rest_flag_of (db w) date = true →
       StreakData (db w') !! date = Some (default 0 (StreakData (db w) !! (date - 1)))).
Proof.
  intros Hw Ha Hc Hh Hp Hd. eexists _, _.
  split; [by apply recalculateDailyScore_ok|]. cbn [db].
  assert (habit_score_of (db w) date = 0%float) as Hhabit.
  { unfold habit_score_of. by rewrite Hh. }
  assert (task_score_of (db w) date = 0%float) as Htask.
  { unfold task_score_of. by rewrite Ha, Hc. }
  assert (time_score_of (db w) date = 0%float) as Htime.
  { unfold time_score_of. by rewrite Hp, Hd. }
  assert (composed_base (db w) date = 0%float) as Hbase.
  { unfold composed_base. by rewrite Hhabit, Htask, Htime. }
  cbn [composed sd_habit_score_component sd_task_score_component sd_time_score_component
       sd_streak_bonus_component sd_total_daily_score].
  rewrite Hhabit, Htask, Htime, Hbase, composed_db_StreakData, lookup_insert_eq.
  unfold composed_streak. rewrite Hbase, composer_streak_logic_rule.
  repeat apply conj; try reflexivity.
  - intros ->. by repeat apply conj.
  - by intros ->.
Qed.

Lemma recalculateDailyScore_no_data_witness :
  ∃ record w',
    recalculateDailyScore log2_linear 4 (fresh scenario_db) = (Resolved record, w')
    ∧ sd_total_daily_score record = 0%float
    ∧ StreakData (db w') !! 4 = Some 0.
Proof.
  destruct (recalculateDailyScore_no_data log2_linear (fresh scenario_db) 4
              eq_refl eq_refl eq_refl eq_refl eq_refl eq_refl)
    as (record & w' & Hrun & _ & _ & _ & Hplain & _).
  exists record, w'. destruct (Hplain eq_refl) as (_ & Htotal & Hstreak).
  exact (conj Hrun (conj Htotal Hstreak)).
Defined.

(** *** The metric calculators *)

(** In [calculateHabitScore] a failure of the first query, which only feeds
    a log line, is ignored: the score is the one of the second query. A
    failure of the second query rejects. *)
Theorem calculateHabitScore_first_query_failure_ignored (d : Db) (t : list Event)
    (fs : list bool) (first_fails : bool) (date : Z) :
  calculateHabitScore date {| db := d; faults := first_fails :: false :: fs; trace := t |}
  = (Resolved (or_zero (Sql.sum_weights date d)), {| db := d; faults := fs; trace := t |})
  ∧ fst (calculateHabitScore date
           {| db := d; faults := first_fails :: true :: fs; trace := t |}) = Rejected.
Proof. by destruct first_fails. Qed.

(** *** The handlers *)

Lemma try_catch_resolved {A} (m h : io A) w a w' :
  m w = (Resolved a, w') → try_catch m h w = (Resolved a, w').
Proof. unfold try_catch. by intros ->. Qed.

Lemma bind_resolved {A B} (m : io A) (k : A → io B) w a w' :
  m w = (Resolved a, w') → (m ≫= k) w = k a w'.
Proof. unfold mbind, io_bind. by intros ->. Qed.

Lemma runDb_changes_ok e changes stmt w :
  faults w = [] →
  runDb_changes e changes stmt w
  = (Resolved (changes (db w)), {| db := stmt (db w); faults := []; trace := e :: trace w |}).
Proof. destruct w as [d fs t]; simpl; by intros ->. Qed.

Lemma runDb_ok e f w :
  faults w = [] →
  runDb e f w = (Resolved (), {| db := f (db w); faults := []; trace := e :: trace w |}).
Proof. destruct w as [d fs t]; simpl; by intros ->. Qed.

Lemma getDb_ok {A} (q : Db → A) w :
  faults w = [] → getDb q w = (Resolved (q (db w)), w).
Proof. destruct w as [d fs t]; simpl; by intros ->. Qed.

(** Composition of a date followed by reconciliation from the next day,
    no statement failing. *)
Lemma recalculate_then_reconcile_ok {A} L date (k : io A) w :
  faults w = [] →
  (_ ← recalculateDailyScore L date; _ ← recalculateStreaksForward L (date + 1); k) w
  = k {| db := reconciled_db L (composed_db L (db w) date) (date + 1); faults := [];
         trace := recalculated_events L (db w) date ++ trace w |}.
Proof.
  intros Hw. rewrite (bind_resolved _ _ _ _ _ (recalculateDailyScore_ok L date w Hw)).
  erewrite bind_resolved; [|by apply recalculateStreaksForward_ok].
  cbn [db trace]. unfold recalculated_events. by rewrite <- app_assoc.
Qed.

Lemma put_task_ok L id body w :
  faults w = [] → no_field body = false →
  put_task L id body w
  = if RouteSql.task_changes id (db w) =? 0 then
      (Resolved (Status 404),
       {| db := RouteSql.update_task id body (db w); faults := [];
          trace := Update_Tasks id :: trace w |})
    else
      match RouteSql.select_target_date id (RouteSql.update_task id body (db w)) with
      | Some taskDate =>
          (Resolved (Status 200),
           {| db := reconciled_db L
                      (composed_db L (RouteSql.update_task id body (db w)) taskDate)
                      (taskDate + 1);
              faults := [];
              trace := recalculated_events L (RouteSql.update_task id body (db w)) taskDate
                       ++ Update_Tasks id :: trace w |})
      | None =>
          (Resolved (Status 200),
           {| db := RouteSql.update_task id body (db w); faults := [];
              trace := Update_Tasks id :: trace w |})
      end.
Proof.
  intros Hw Hbody.
  assert (put_task L id body
          = try_catch
              (changes ← runDb_changes (Update_Tasks id) (RouteSql.task_changes id)
                           (RouteSql.update_task id body);
               if changes =? 0 then mret (Status 404)
               else
                 task ← getDb (RouteSql.select_target_date id);
                 _ ← match task with
                     | Some taskDate =>
                         _ ← recalculateDailyScore L taskDate;
                         let nextDayStr := taskDate + 1 in
                         try_catch (recalculateStreaksForward L nextDayStr)
                           (console Console_error)
                     | None => mret ()
                     end;
                 mret (Status 200))
              (_ ← console Console_error; mret (Status 500))) as ->.
  { by destruct body as [[?|] [?|] [?|] [?|]]. }
  unfold try_catch at 1.
  rewrite (bind_resolved _ _ _ _ _ (runDb_changes_ok _ _ _ w Hw)).
  destruct (RouteSql.task_changes id (db w) =? 0); [done|].
  erewrite bind_resolved; [|by apply getDb_ok]. cbn [db].
  destruct (RouteSql.select_target_date id (RouteSql.update_task id body (db w)))
    as [taskDate|]; [|done].
  unfold mbind at 1, io_bind at 1.
  erewrite bind_resolved; [|by apply recalculateDailyScore_ok].
  unfold try_catch. rewrite recalculateStreaksForward_ok by done.
  cbn [db trace]. unfold mret, io_ret, recalculated_events. by rewrite <- app_assoc.
Qed.

Lemma forward_day_db_Tasks L d c : Tasks (forward_day_db L d c) = Tasks d.
Proof.
  unfold forward_day_db. destruct (DailyScores d !! c) as [e|] eqn:He; [|done].
  destruct (forward_streak d e c) as [ns basis].
  destruct (strict_neq _ _); [|done].
  unfold Sql.update_bonus. simpl. by rewrite He.
Qed.

Lemma reconciliation_keeps_tasks L d start : Tasks (reconciled_db L d start) = Tasks d.
Proof.
  unfold reconciled_db. destruct (Sql.max_date d) as [last|]; [|done].
  destruct (last <? start); [done|].
  generalize (Z.to_nat (last - start + 1)). intros days. revert d start.
  induction days as [|days IH]; intros d start; [done|].
  simpl. by rewrite IH, forward_day_db_Tasks.
Qed.

Lemma map_update_no_match id body (ts : list TaskRow) :
  filter (λ t, task_id t = id) ts = [] →
  map (λ t, if decide (task_id t = id) then RouteSql.apply_update body t else t) ts = ts.
Proof.
  induction ts as [|t ts IH]; [done|]. simpl. rewrite filter_cons.
  destruct (decide (task_id t = id)); [done|]. intros H. by rewrite IH.
Qed.

Lemma update_task_no_match id body d :
  RouteSql.task_changes id d = 0 → RouteSql.update_task id body d = d.
Proof.
  unfold RouteSql.task_changes, RouteSql.update_task. intros Hn.
  apply Db_eq; try done. simpl. apply map_update_no_match.
  destruct (filter _ _); [done | simpl in Hn; lia].
Qed.

(** [PUT /api/tasks/:id] for an id no task has: the answer is 404, the
    store is what it was and the engine is not entered (all statements
    succeeding, the body naming a field). *)
Theorem put_task_unknown_id (L : float → float) (w : World) (id : Z) (body : TaskUpdate) :
  faults w = [] → no_field body = false →
  RouteSql.task_changes id (db w) = 0 →
  ∃ w', put_task L id body w = (Resolved (Status 404), w')
        ∧ db w' = db w
        ∧ trace w' = Update_Tasks id :: trace w.
Proof.
  intros Hw Hbody Hn. rewrite put_task_ok, Hn by done. simpl.
  eexists. split; [done|]. simpl. split; [by apply update_task_no_match | done].
Qed.

Lemma put_task_unknown_id_witness :
  ∃ w', put_task log2_linear 7 {| new_description := None; new_target_date := None;
                                  new_is_assigned := None; new_is_done := Some true |}
          (fresh scenario_db) = (Resolved (Status 404), w')
        ∧ db w' = db (fresh scenario_db).
Proof.
  destruct (put_task_unknown_id log2_linear (fresh scenario_db) 7
              {| new_description := None; new_target_date := None;
                 new_is_assigned := None; new_is_done := Some true |}
              eq_refl eq_refl eq_refl) as (w' & H1 & H2 & _).
  exists w'. exact (conj H1 H2).
Defined.

(** After a task update answered with 200 (all statements succeeding), the
    streak chain behind the task's date is repaired: every scored day after
    the task's target date, up to the last scored date, stores the streak
    the transition rule gives from the streak stored for the day before,
    its own stored components and its rest-day flag. *)
Theorem put_task_repairs_streak_chain (L : float → float) (w w' : World) (id : Z)
    (body : TaskUpdate) (taskDate last x : Z) (e : DailyScoreRow) :
  faults w = [] →
  put_task L id body w = (Resolved (Status 200), w') →
  RouteSql.select_target_date id (db w') = Some taskDate →
  Sql.max_date (db w') = Some last →
  taskDate < x ≤ last →
  DailyScores (db w') !! x = Some e →
  StreakData (db w') !! x
  = Some (fst (Spec.transition_rule (default 0 (StreakData (db w') !! (x - 1)))
                 (Spec.base (habit_score_component e) (task_score_component e)
                    (time_score_component e))
                 (is_manually_marked_rest_day e =? 1))).
Proof.
  intros Hw Hrun Hsel Hlast Hx He.
  destruct (no_field body) eqn:Hbody.
  { destruct body as [[?|] [?|] [?|] [?|]]; discriminate. }
  rewrite put_task_ok in Hrun by done.
  destruct (RouteSql.task_changes id (db w) =? 0); [by inversion Hrun|].
  destruct (RouteSql.select_target_date id (RouteSql.update_task id body (db w)))
    as [td|] eqn:Htd.
  - injection Hrun as <-. cbn [db] in *.
    assert (td = taskDate) as ->.
    { unfold RouteSql.select_target_date in *.
      pose proof (reconciliation_keeps_tasks L
                    (composed_db L (RouteSql.update_task id body (db w)) td) (td + 1)) as HT.
      rewrite HT in Hsel.
      change (Tasks (composed_db L (RouteSql.update_task id body (db w)) td))
        with (Tasks (RouteSql.update_task id body (db w))) in Hsel.
      congruence. }
    assert (Sql.max_date (composed_db L (RouteSql.update_task id body (db w)) taskDate)
            = Some last) as Hlast'.
    { rewrite <- Hlast. symmetry. apply max_date_same_dates.
      intros j. apply reconciled_db_same_dates. }
    pose proof (reconciled_db_settles L _ (taskDate + 1) last x Hlast' ltac:(lia)) as Hs.
    unfold settled in Hs. rewrite He in Hs. destruct Hs as [Hs _].
    rewrite Hs. unfold forward_streak. by rewrite forward_streak_logic_rule.
  - injection Hrun as <-. cbn [db] in *. congruence.
Qed.

Lemma put_task_repairs_streak_chain_witness :
  ∃ w' e,
    put_task log2_linear 1 mark_not_done (fresh scenario_db) = (Resolved (Status 200), w')
    ∧ DailyScores (db w') !! 3 = Some e
    ∧ StreakData (db w') !! 2 = Some 1
    ∧ StreakData (db w') !! 3 = Some 2.
Proof.
  eexists _, _. split; [vm_compute; reflexivity|]. split; [vm_compute; reflexivity|].
  split; [vm_compute; reflexivity|].
  refine (eq_trans
            (put_task_repairs_streak_chain log2_linear (fresh scenario_db) _ 1 mark_not_done
               1 3 3 _ eq_refl _ _ _ _ _) _).
  - vm_compute. reflexivity.
  - vm_compute. reflexivity.
  - vm_compute. reflexivity.
  - lia.
  - vm_compute. reflexivity.
  - vm_compute. reflexivity.
Defined.

(** A failure of the reconciliation that a task update triggers is logged
    and swallowed: the answer is still 200, with the task's date composed
    and the days after it not reconciled. *)
Theorem put_task_swallows_reconciliation_failure (L : float → float) (d : Db)
    (t : list Event) (fs : list bool) (id : Z) (body : TaskUpdate) (taskDate : Z) :
  no_field body = false →
  RouteSql.task_changes id d ≠ 0 →
  RouteSql.select_target_date id (RouteSql.update_task id body d) = Some taskDate →
  ∃ w', put_task L id body {| db := d; faults := fails_at_reconciliation fs; trace := t |}
        = (Resolved (Status 200), w')
        ∧ db w' = composed_db L (RouteSql.update_task id body d) taskDate
        ∧ faults w' = fs
        ∧ head (trace w') = Some Console_error.
Proof.
  intros Hbody Hn Hsel.
  assert (put_task L id body
          = try_catch
              (changes ← runDb_changes (Update_Tasks id) (RouteSql.task_changes id)
                           (RouteSql.update_task id body);
               if changes =? 0 then mret (Status 404)
               else
                 task ← getDb (RouteSql.select_target_date id);
                 _ ← match task with
                     | Some taskDate =>
                         _ ← recalculateDailyScore L taskDate;
                         let nextDayStr := taskDate + 1 in
                         try_catch (recalculateStreaksForward L nextDayStr)
                           (console Console_error)
                     | None => mret ()
                     end;
                 mret (Status 200))
              (_ ← console Console_error; mret (Status 500))) as ->.
  { by destruct body as [[?|] [?|] [?|] [?|]]. }
  unfold try_catch, runDb_changes, recalculateStreaksForward, recalculateDailyScore,
    calculateTaskScore, calculateHabitScore, calculateTimeScore, composed_db, composed.
  io_unfold. simpl.
  rewrite (proj2 (Z.eqb_neq _ _) Hn). simpl. rewrite Hsel. simpl.
  change (composer_streak_logic _ _ _)
    with (composed_streak (RouteSql.update_task id body d) taskDate).
  destruct (composed_streak (RouteSql.update_task id body d) taskDate) as [ns basis].
  simpl. by eexists.
Qed.

Lemma put_task_swallows_reconciliation_failure_witness :
  ∃ w', put_task log2_linear 1 mark_not_done
          {| db := scenario_db; faults := fails_at_reconciliation []; trace := [] |}
        = (Resolved (Status 200), w')
        ∧ db w' = composed_db log2_linear (RouteSql.update_task 1 mark_not_done scenario_db) 1.
Proof.
  destruct (put_task_swallows_reconciliation_failure log2_linear scenario_db [] [] 1
              mark_not_done 1 eq_refl) as (w' & H1 & H2 & _).
  - vm_compute. discriminate.
  - vm_compute. reflexivity.
  - exists w'. exact (conj H1 H2).
Defined.

Lemma reconciled_db_keeps_inputs L d start x r :
  (∃ r', DailyScores d !! x = Some r' ∧ keeps_inputs r r') →
  ∃ r', DailyScores (reconciled_db L d start) !! x = Some r' ∧ keeps_inputs r r'.
Proof.
  unfold reconciled_db. destruct (Sql.max_date d) as [last|]; [|done].
  destruct (last <? start); [done|].
  generalize (Z.to_nat (last - start + 1)). intros days. revert d start.
  induction days as [|days IH]; intros d start H; [done|].
  simpl. apply IH. by apply forward_day_db_keeps_inputs.
Qed.

Lemma select_target_date_moved id body d nd td :
  new_target_date body = Some nd →
  RouteSql.select_target_date id (RouteSql.update_task id body d) = Some td → td = nd.
Proof.
  unfold RouteSql.select_target_date, RouteSql.update_task. simpl. intros Hnd.
  induction (Tasks d) as [|t ts IH]; [done|]. simpl. rewrite filter_cons.
  destruct (decide (task_id t = id)) as [Hid|Hid].
  - rewrite decide_True by done. simpl. rewrite Hnd. simpl. congruence.
  - by rewrite decide_False.
Qed.

(** A task update that moves a task to another date recomputes the new
    date only: every other date with a row, the date the task came from
    included, keeps the habit, task and time components it had (all
    statements succeeding). *)
Theorem put_task_leaves_old_date_components (L : float → float) (w : World) (id : Z)
    (body : TaskUpdate) (newDate x : Z) (r : DailyScoreRow) :
  faults w = [] →
  new_target_date body = Some newDate →
  x ≠ newDate →
  DailyScores (db w) !! x = Some r →
  ∃ r', DailyScores (db (snd (put_task L id body w))) !! x = Some r'
        ∧ habit_score_component r' = habit_score_component r
        ∧ task_score_component r' = task_score_component r
        ∧ time_score_component r' = time_score_component r.
Proof.
  intros Hw Hnd Hx Hr.
  assert (no_field body = false) as Hbody.
  { destruct body as [[?|] [?|] ? ?]; done. }
  rewrite put_task_ok by done.
  destruct (RouteSql.task_changes id (db w) =? 0); [by exists r|].
  destruct (RouteSql.select_target_date id (RouteSql.update_task id body (db w)))
    as [td|] eqn:Htd; [|by exists r].
  apply (select_target_date_moved _ _ _ newDate) in Htd as ->; [|done]. cbn [snd db].
  destruct (reconciled_db_keeps_inputs L
              (composed_db L (RouteSql.update_task id body (db w)) newDate) (newDate + 1) x r)
    as (r' & Hr' & Hh & Ht & Htm & _).
  - exists r. split; [|done]. rewrite composed_db_DailyScores.
    by rewrite lookup_insert_ne.
  - by exists r'.
Qed.

Lemma put_task_leaves_old_date_components_witness :
  ∃ r r',
    DailyScores (db (fresh scenario_db)) !! 1 = Some r
    ∧ DailyScores (db (snd (put_task log2_linear 1 (move_to 2) (fresh scenario_db)))) !! 1
      = Some r'
    ∧ task_score_component r' = task_score_component r.
Proof.
  eexists. 
  destruct (put_task_leaves_old_date_components log2_linear (fresh scenario_db) 1 (move_to 2)
              2 1 _ eq_refl eq_refl ltac:(lia) ltac:(vm_compute; reflexivity))
    as (r' & Hr' & _ & Ht & _).
  exists r'. split; [vm_compute; reflexivity|]. exact (conj Hr' Ht).
Defined.

Lemma put_daily_status_ok L date is_rest_day w :
  faults w = [] →
  put_daily_status L date is_rest_day w
  = (Resolved (Status 200),
     {| db := composed_db L
                (RouteSql.upsert_rest_day date (if is_rest_day then 1 else 0) (db w)) date;
        faults := [];
        trace := Upsert_StreakData date
                   (fst (composed_streak
                           (RouteSql.upsert_rest_day date (if is_rest_day then 1 else 0) (db w))
                           date))
                 :: Upsert_DailyScores
                      (composed L
                         (RouteSql.upsert_rest_day date (if is_rest_day then 1 else 0) (db w))
                         date)
                 :: Log_recalculateDailyScore date
                 :: Upsert_DailyScores_rest_day date (if is_rest_day then 1 else 0)
                 :: trace w |}).
Proof.
  intros Hw. unfold put_daily_status. apply try_catch_resolved.
  erewrite bind_resolved; [|by apply runDb_ok].
  erewrite bind_resolved; [|by apply recalculateDailyScore_ok]. done.
Qed.

Lemma upsert_rest_day_flag date flag d :
  is_manually_marked_rest_day <$> DailyScores (RouteSql.upsert_rest_day date flag d) !! date
  = Some flag.
Proof.
  unfold RouteSql.upsert_rest_day.
  destruct (DailyScores d !! date); simpl; by rewrite lookup_insert_eq.
Qed.

(** Rest-day carry-over. Marking a date as a rest day through its handler,
    all statements succeeding, answers 200 and leaves the date with the
    flag 1 and with the streak of the day before (0 if that day has none),
    whatever the date's own score is; unmarking it leaves the flag 0 and
    the streak the rule gives without the exemption. *)
Theorem put_daily_status_carries_streak_over (L : float → float) (w : World) (date : Z)
    (is_rest_day : bool) :
  faults w = [] →
  ∃ w', put_daily_status L date is_rest_day w = (Resolved (Status 200), w')
        ∧ is_manually_marked_rest_day <$> DailyScores (db w') !! date
          = Some (if is_rest_day then 1 else 0)
        ∧ StreakData (db w') !! date
          = Some (if is_rest_day then default 0 (StreakData (db w) !! (date - 1))
                  else if ge (composed_base (db w) date) 60
                       then default 0 (StreakData (db w) !! (date - 1)) + 1
                       else 0).
Proof.
  intros Hw. eexists. split; [by apply put_daily_status_ok|]. cbn [db].
  set (d1 := RouteSql.upsert_rest_day date (if is_rest_day then 1 else 0) (db w)).
  assert (rest_flag_of d1 date = is_rest_day) as Hflag.
  { unfold rest_flag_of, d1. rewrite upsert_rest_day_flag. by destruct is_rest_day. }
  assert (prev_streak_of d1 date = default 0 (StreakData (db w) !! (date - 1))) as Hprev.
  { unfold prev_streak_of, d1, RouteSql.upsert_rest_day.
    by destruct (DailyScores (db w) !! date). }
  assert (composed_base d1 date = composed_base (db w) date) as Hbase.
  { unfold d1, RouteSql.upsert_rest_day. by destruct (DailyScores (db w) !! date). }
  split.
  - rewrite composed_db_DailyScores, lookup_insert_eq. simpl. by rewrite Hflag.
  - rewrite composed_db_StreakData, lookup_insert_eq. unfold composed_streak.
    rewrite Hflag, Hprev, Hbase, composer_streak_logic_rule. unfold Spec.transition_rule.
    rewrite <- ge_at_least. destruct is_rest_day; [done|]. by destruct (ge _ _).
Qed.

Lemma put_daily_status_carries_streak_over_witness :
  ∃ w', put_daily_status log2_linear 3 true (fresh undone_db) = (Resolved (Status 200), w')
        ∧ StreakData (db w') !! 3 = Some 2.
Proof.
  destruct (put_daily_status_carries_streak_over log2_linear (fresh undone_db) 3 true eq_refl)
    as (w' & H1 & _ & H2).
  exists w'. split; [exact H1|]. rewrite H2. vm_compute. reflexivity.
Defined.


(** The uncompletion handler of the route file that leaves the arguments
    of [Date.UTC] out: when the completion exists (all statements
    succeeding), it deletes the completion and composes the date, then
    fails on the date computation and answers 500 without entering the
    Reconciler. *)
Theorem delete_habit_complete_elided_never_reconciles (L : float → float) (w : World)
    (habitId date : Z) :
  faults w = [] →
  RouteSql.completion_changes habitId date (db w) ≠ 0 →
  ∃ w', delete_habit_complete_elided L habitId date w = (Resolved (Status 500), w')
        ∧ db w' = composed_db L (RouteSql.delete_completion habitId date (db w)) date
        ∧ ∀ y, Log_recalculateStreaksForward y ∈ trace w' →
               Log_recalculateStreaksForward y ∈ trace w.
Proof.
  intros Hw Hn. unfold delete_habit_complete_elided, try_catch.
  rewrite (bind_resolved _ _ _ _ _ (runDb_changes_ok _ _ _ w Hw)).
  rewrite (proj2 (Z.eqb_neq _ _) Hn).
  erewrite bind_resolved; [|by apply recalculateDailyScore_ok].
  simpl. eexists. split; [done|]. simpl. split; [done|].
  intros y Hy. repeat (apply elem_of_cons in Hy as [Hy|Hy]; [discriminate|]). done.
Qed.

Lemma delete_habit_complete_elided_never_reconciles_witness :
  ∃ w', delete_habit_complete_elided log2_linear 1 1 (fresh scenario_db)
        = (Resolved (Status 500), w')
        ∧ StreakData (db w') !! 2 = Some 2.
Proof.
  destruct (delete_habit_complete_elided_never_reconciles log2_linear (fresh scenario_db) 1 1
              eq_refl) as (w' & Hrun & Hdb & _).
  - vm_compute. discriminate.
  - exists w'. split; [exact Hrun|]. rewrite Hdb. vm_compute. reflexivity.
Defined.

Lemma latest_streak_spec d :
  match ServerSql.latest_streak d with
  | None => StreakData d = ∅
  | Some v => ∃ k, StreakData d !! k = Some v
                   ∧ ∀ j, is_Some (StreakData d !! j) → j ≤ k
  end.
Proof.
  unfold ServerSql.latest_streak.
  assert (match map_fold (λ k v acc, match acc with
                                     | None => Some (k, v)
                                     | Some (j, u) => if j <? k then Some (k, v) else Some (j, u)
                                     end) None (StreakData d) with
          | None => StreakData d = ∅
          | Some (k, v) => StreakData d !! k = Some v
                           ∧ ∀ j, is_Some (StreakData d !! j) → j ≤ k
          end) as H.
  { apply (map_fold_weak_ind
             (λ r (m : gmap Z Z),
                match r with
                | None => m = ∅
                | Some (k, v) => m !! k = Some v ∧ ∀ j, is_Some (m !! j) → j ≤ k
                end)); [done|].
    intros i x m r Hi Hr. destruct r as [[k v]|].
    - destruct Hr as [Hk Hmax]. destruct (k <? i) eqn:Hlt.
      + apply Z.ltb_lt in Hlt. split; [by rewrite lookup_insert_eq|].
        intros j Hj. destruct (decide (i = j)) as [->|Hne]; [lia|].
        rewrite lookup_insert_ne in Hj by done. specialize (Hmax j Hj). lia.
      + apply Z.ltb_ge in Hlt. assert (i ≠ k) by congruence.
        split; [by rewrite lookup_insert_ne|].
        intros j Hj. destruct (decide (i = j)) as [->|Hne]; [lia|].
        rewrite lookup_insert_ne in Hj by done. by apply Hmax.
    - subst m. split; [by rewrite lookup_insert_eq|].
      intros j Hj. destruct (decide (i = j)) as [->|Hne]; [lia|].
      rewrite lookup_insert_ne, lookup_empty in Hj by done. by destruct Hj. }
  destruct (map_fold _ _ _) as [[k v]|]; simpl; [by exists k | done].
Qed.

(** [GET /api/streak] answers the streak stored for the greatest date of
    [StreakData], and 0 when the table is empty; it answers an error when
    its query fails; it never changes the store. *)
Theorem get_streak_answers_latest (w : World) :
  db (snd (get_streak w)) = db w
  ∧ (faults w = [] →
     (StreakData (db w) = ∅ → fst (get_streak w) = Resolved (Streak_ok 0))
     ∧ (∀ k v, StreakData (db w) !! k = Some v →
               (∀ j, is_Some (StreakData (db w) !! j) → j ≤ k) →
               fst (get_streak w) = Resolved (Streak_ok v)))
  ∧ (head (faults w) = Some true → fst (get_streak w) = Resolved Streak_error).
Proof.
  pose proof (latest_streak_spec (db w)) as Hspec.
  destruct w as [d fs t]. unfold get_streak, try_catch. io_unfold. simpl in *.
  split; [by destruct fs as [|[] fs]|]. split.
  - intros ->. simpl. split.
    + intros Hempty. destruct (ServerSql.latest_streak d) as [v|]; [|done].
      destruct Hspec as (k & Hk & _). rewrite Hempty, lookup_empty in Hk. discriminate.
    + intros k v Hk Hmax. destruct (ServerSql.latest_streak d) as [v'|].
      * destruct Hspec as (k' & Hk' & Hmax').
        assert (k = k') as <-.
        { pose proof (Hmax k' (mk_is_Some _ _ Hk')). pose proof (Hmax' k (mk_is_Some _ _ Hk)).
          lia. }
        congruence.
      * rewrite Hspec, lookup_empty in Hk. discriminate.
  - destruct fs as [|[] fs]; simpl; [discriminate | done | discriminate].
Qed.

Lemma get_streak_answers_latest_witness :
  fst (get_streak (fresh scenario_db)) = Resolved (Streak_ok 3).
Proof.
  refine (proj2 (proj1 (proj2 (get_streak_answers_latest (fresh scenario_db))) eq_refl) 3 3 _ _).
  - vm_compute. reflexivity.
  - intros j [v Hj]. destruct (decide (j ≤ 3)) as [|Hgt]; [done|].
    exfalso. revert Hj. 
    assert (StreakData (db (fresh scenario_db)) = <[3:=3]> (<[2:=2]> (<[1:=1]> ∅))) as ->
      by (vm_compute; reflexivity).
    rewrite !lookup_insert_ne by lia. by rewrite lookup_empty.
Defined.

(** [GET /api/daily-score/:date], all statements succeeding: a stored row
    is answered as it is, without entering the Composer and without
    touching the store, whatever the source data are by now; a missing row
    is calculated and saved, and a second request answers the saved row,
    with the numbers of the first answer. *)
Theorem get_daily_score_stored_or_calculated (L : float → float) (w : World) (date : Z) :
  faults w = [] →
  (∀ r, DailyScores (db w) !! date = Some r →
        get_daily_score L date w = (Resolved (Score_stored r), w))
  ∧ (DailyScores (db w) !! date = None →
     ∃ data w1 row w2,
       get_daily_score L date w = (Resolved (Score_calculated data), w1)
       ∧ get_daily_score L date w1 = (Resolved (Score_stored row), w2)
       ∧ db w2 = db w1
       ∧ habit_score_component row = sd_habit_score_component data
       ∧ task_score_component row = sd_task_score_component data
       ∧ time_score_component row = sd_time_score_component data
       ∧ streak_bonus_component row = sd_streak_bonus_component data
       ∧ total_daily_score row = sd_total_daily_score data
       ∧ is_manually_marked_rest_day row = sd_is_manually_marked_rest_day data).
Proof.
  intros Hw. split.
  - intros r Hr. unfold get_daily_score. apply try_catch_resolved.
    erewrite bind_resolved; [|by apply getDb_ok]. by rewrite Hr.
  - intros Hnone.
    assert (get_daily_score L date w
            = (Resolved (Score_calculated (composed L (db w) date)),
               {| db := composed_db L (db w) date; faults := [];
                  trace := Upsert_StreakData date (fst (composed_streak (db w) date))
                           :: Upsert_DailyScores (composed L (db w) date)
                           :: Log_recalculateDailyScore date :: trace w |})) as Hfirst.
    { unfold get_daily_score. apply try_catch_resolved.
      erewrite bind_resolved; [|by apply getDb_ok]. rewrite Hnone.
      apply try_catch_resolved.
      erewrite bind_resolved; [|by apply recalculateDailyScore_ok]. done. }
    eexists _, _, _, _. split; [exact Hfirst|]. split.
    + unfold get_daily_score. apply try_catch_resolved.
      erewrite bind_resolved; [|by apply getDb_ok]. cbn [db].
      rewrite composed_db_DailyScores, lookup_insert_eq. done.
    + done.
Qed.

Lemma get_daily_score_stored_or_calculated_witness :
  ∃ r, DailyScores (db (fresh undone_db)) !! 1 = Some r
       ∧ get_daily_score log2_linear 1 (fresh undone_db)
         = (Resolved (Score_stored r), fresh undone_db)
       ∧ total_daily_score r = 97%float.
Proof.
  eexists. split; [vm_compute; reflexivity|]. split.
  - apply (proj1 (get_daily_score_stored_or_calculated log2_linear (fresh undone_db) 1 eq_refl)).
    vm_compute. reflexivity.
  - reflexivity.
Defined.

(** *** A reconciliation cut short *)

Lemma forward_loop_db_later_row L days d c x :
  c + Z.of_nat days ≤ x →
  DailyScores (forward_loop_db L days d c) !! x = DailyScores d !! x.
Proof.
  revert d c. induction days as [|days IH]; intros d c Hx; simpl; [done|].
  rewrite IH by lia. apply forward_day_db_other_row. lia.
Qed.

Lemma forward_loop_db_later_streak L days d c x :
  c + Z.of_nat days ≤ x →
  StreakData (forward_loop_db L days d c) !! x = StreakData d !! x.
Proof.
  revert d c. induction days as [|days IH]; intros d c Hx; simpl; [done|].
  rewrite IH by lia. apply forward_day_db_other_streak. lia.
Qed.

(** The store a loop leaves when a statement fails: the first [k] days done,
    and possibly the streak of the next day written. *)
Lemma forward_loop_at L days d0 t0 c :
  triple (at_ d0 t0) (forward_loop L days c)
    (λ _ d _, d = forward_loop_db L days d0 c)
    (λ d _, ∃ k : nat, (k < days)%nat
        ∧ (d = forward_loop_db L k d0 c
           ∨ ∃ e, DailyScores (forward_loop_db L k d0 c) !! (c + Z.of_nat k) = Some e
                  ∧ d = Sql.upsert_StreakData (c + Z.of_nat k)
                          (fst (forward_streak (forward_loop_db L k d0 c) e (c + Z.of_nat k)))
                          (forward_loop_db L k d0 c))).
Proof.
  revert d0 t0 c. induction days as [|days IH]; intros d0 t0 c; simpl.
  - by apply at_ret.
  - eapply triple_bind.
    + eapply triple_conseq; [apply forward_day_at | done | | ].
      * intros ? d t H. exact H.
      * intros d t [[-> _] | (e & He & -> & _)]; exists 0%nat; split; try lia.
        -- by left.
        -- right. exists e. simpl. by rewrite Z.add_0_r.
    + intros ?. apply triple_of_at. intros d1 t1 [-> ->].
      eapply triple_conseq; [apply IH | done | done |].
      intros d t (k & Hk & Hd). exists (S k). split; [lia|].
      change (forward_loop_db L (S k) d0 c)
        with (forward_loop_db L k (forward_day_db L d0 c) (c + 1)).
      replace (c + Z.of_nat (S k)) with (c + 1 + Z.of_nat k) by lia. exact Hd.
Qed.

(** A reconciliation rejected by a storage failure has got as far as some
    day [cut] of its range: the scored days before [cut] store the streak
    the transition rule gives from the day before them, and the days after
    [cut] are as they were. *)
Theorem reconciliation_cut_short (L : float → float) (w : World) (start : Z) :
  fst (recalculateStreaksForward L start w) = Rejected →
  ∃ cut, start ≤ cut
    ∧ (∀ x e, start ≤ x < cut →
         DailyScores (db (snd (recalculateStreaksForward L start w))) !! x = Some e →
         StreakData (db (snd (recalculateStreaksForward L start w))) !! x
         = Some (fst (Spec.transition_rule
                        (default 0 (StreakData (db (snd (recalculateStreaksForward L start w)))
                                    !! (x - 1)))
                        (Spec.base (habit_score_component e) (task_score_component e)
                           (time_score_component e))
                        (is_manually_marked_rest_day e =? 1))))
    ∧ (∀ x, cut < x →
         DailyScores (db (snd (recalculateStreaksForward L start w))) !! x
         = DailyScores (db w) !! x
         ∧ StreakData (db (snd (recalculateStreaksForward L start w))) !! x
           = StreakData (db w) !! x).
Proof.
  intros Hrej.
  assert (∃ k : nat,
            db (snd (recalculateStreaksForward L start w)) = forward_loop_db L k (db w) start
            ∨ ∃ e, DailyScores (forward_loop_db L k (db w) start) !! (start + Z.of_nat k) = Some e
                   ∧ db (snd (recalculateStreaksForward L start w))
                     = Sql.upsert_StreakData (start + Z.of_nat k)
                         (fst (forward_streak (forward_loop_db L k (db w) start) e
                                 (start + Z.of_nat k)))
                         (forward_loop_db L k (db w) start)) as (k & Hk).
  { revert Hrej. destruct w as [d fs t]. unfold recalculateStreaksForward. io_unfold. simpl.
    destruct fs as [|[] fs]; simpl; try (intros _; exists 0%nat; by left).
    - destruct (Sql.max_date d) as [last|]; [|discriminate].
      destruct (last <? start); [discriminate|].
      pose proof (forward_loop_at L (Z.to_nat (last - start + 1)) d
                    (Log_recalculateStreaksForward start :: t) start
                    {| db := d; faults := []; trace := Log_recalculateStreaksForward start :: t |}
                    (conj eq_refl eq_refl)) as H.
      destruct (forward_loop _ _ _ _) as [[?|] w']; [discriminate|].
      intros _. destruct H as (k & _ & H). by exists k.
    - destruct (Sql.max_date d) as [last|]; [|discriminate].
      destruct (last <? start); [discriminate|].
      pose proof (forward_loop_at L (Z.to_nat (last - start + 1)) d
                    (Log_recalculateStreaksForward start :: t) start
                    {| db := d; faults := fs; trace := Log_recalculateStreaksForward start :: t |}
                    (conj eq_refl eq_refl)) as H.
      destruct (forward_loop _ _ _ _) as [[?|] w']; [discriminate|].
      intros _. destruct H as (k & _ & H). by exists k. }
  exists (start + Z.of_nat k). split; [lia|].
  set (dk := forward_loop_db L k (db w) start) in *.
  assert (∀ x, x ≠ start + Z.of_nat k →
            DailyScores (db (snd (recalculateStreaksForward L start w))) !! x
            = DailyScores dk !! x
            ∧ StreakData (db (snd (recalculateStreaksForward L start w))) !! x
              = StreakData dk !! x) as Hsame.
  { intros x Hx. destruct Hk as [-> | (e & _ & ->)]; [done|].
    split; [done|]. simpl. by rewrite lookup_insert_ne. }
  split.
  - intros x e Hx He.
    destruct (Hsame x ltac:(lia)) as [Hrow Hstreak].
    destruct (Hsame (x - 1) ltac:(lia)) as [_ Hprev].
    rewrite Hrow in He. rewrite Hstreak, Hprev.
    pose proof (forward_loop_db_settles L k (db w) start x ltac:(lia)) as Hs.
    fold dk in Hs. unfold settled in Hs. rewrite He in Hs. destruct Hs as [Hs _].
    rewrite Hs. unfold forward_streak, prev_streak_of. by rewrite forward_streak_logic_rule.
  - intros x Hx. destruct (Hsame x ltac:(lia)) as [-> ->]. unfold dk.
    by rewrite forward_loop_db_later_row, forward_loop_db_later_streak by lia.
Qed.

Lemma reconciliation_cut_short_witness :
  fst (recalculateStreaksForward log2_linear 2 failing_reconciliation) = Rejected
  ∧ ∃ cut, 2 ≤ cut
      ∧ ∀ x, cut < x →
          StreakData (db (snd (recalculateStreaksForward log2_linear 2 failing_reconciliation)))
            !! x
          = StreakData (db failing_reconciliation) !! x.
Proof.
  assert (fst (recalculateStreaksForward log2_linear 2 failing_reconciliation) = Rejected)
    as Hrej by (vm_compute; reflexivity).
  split; [exact Hrej|].
  destruct (reconciliation_cut_short log2_linear failing_reconciliation 2 Hrej)
    as (cut & Hcut & _ & Hlater).
  exists cut. split; [exact Hcut|]. intros x Hx. exact (proj2 (Hlater x Hx)).
Defined.
